(** * testharnessreport.js: the metadata generator

    A shallow embedding of [metadata_generator] (src/testharnessreport.js)
    and the properties of its extractor, validator, renderer and presenter.

    Modelling conventions.
    - A JavaScript string is a Rocq [string]; every character stands for one
      code unit below 256.
    - A JavaScript object used as a mapping is an association list of its own
      enumerable properties, kept in the order in which [for (k in o)] visits
      them: array-index keys first, in ascending numeric order, then the other
      keys in insertion order.  Its prototype is [Object.prototype], whose
      properties are not enumerable.
    - [hasOwnProperty o k] is the method of [Object.prototype] on [o].  A call
      [o.hasOwnProperty(k)] finds that method only when [o] has no own
      property named hasOwnProperty; otherwise it finds a value of the model,
      which is no function, and throws a TypeError ([call_hasOwnProperty]).
      The code is embedded twice.  [extractFromTest], [validateCache] and
      [process] are the code on objects none of which has an own property
      named hasOwnProperty.  [try_extractFromTest], [try_validateCache] and
      [try_process] are the code on all objects of the model, with the
      TypeError of lines 50, 62 and 71 and the state that the throwing call
      leaves behind.  Where nothing hides the method both agree
      ([try_extractFromTest_eq], [try_validateCache_eq], [try_process_eq]).
    - The text of [generateSource] is read back by [read_source], which
      stands for the page and is modelled from the specification, there
      being no code for it in the file.
    - A property value of a test is a boolean, a string or an Array of
      strings ([value]).  Numbers, [null], [undefined], nested objects and
      Arrays with elements that are not strings are outside the model.
    - The document is the list of child nodes of the element that receives the
      messages (the parent of the [summary] element, or the body). *)

From Stdlib Require Import String Ascii List Bool Arith NArith Lia.
Import ListNotations.

Set Warnings "-register-all".

Open Scope string_scope.
Open Scope list_scope.

Local Infix "+++" := String.append (right associativity, at level 60).

(** ** JavaScript strings *)

Definition dquote : ascii := "034"%char.
Definition backslash : ascii := "092"%char.
Definition newline : ascii := "010"%char.

Definition str (c : ascii) : string := String c EmptyString.

Definition nl : string := str newline.
Definition dq : string := str dquote.

(** ** Objects as ordered lists of own enumerable properties *)

Definition obj (A : Type) : Type := list (string * A).

Definition own_keys {A} (o : obj A) : list string := map fst o.

(** [o[k]] restricted to own properties. *)
Fixpoint obj_get {A} (o : obj A) (k : string) : option A :=
  match o with
  | [] => None
  | (k', v) :: rest => if String.eqb k' k then Some v else obj_get rest k
  end.

(** [Object.prototype.hasOwnProperty] on [o].  The call [o.hasOwnProperty(k)]
    of the code reaches it when [o] has no own property named
    hasOwnProperty; [call_hasOwnProperty] below is the call on any object. *)
Definition hasOwnProperty {A} (o : obj A) (k : string) : bool :=
  match obj_get o k with
  | Some _ => true
  | None => false
  end.

(** [delete o[k]]. *)
Definition obj_delete {A} (o : obj A) (k : string) : obj A :=
  filter (fun e => negb (String.eqb (fst e) k)) o.

Definition digit_of (c : ascii) : option N :=
  let n := N_of_ascii c in
  if (48 <=? n)%N && (n <=? 57)%N then Some (n - 48)%N else None.

Fixpoint digits_value (s : string) (acc : N) : option N :=
  match s with
  | EmptyString => Some acc
  | String c rest =>
      match digit_of c with
      | Some d => digits_value rest (acc * 10 + d)%N
      | None => None
      end
  end.

(** A property key is an array index when it is the canonical decimal form of
    an integer below 2^32 - 1. *)
Definition array_index (s : string) : option N :=
  match s with
  | EmptyString => None
  | String c rest =>
      if Ascii.eqb c "0"%char && negb (String.eqb rest EmptyString) then None
      else
        match digits_value s 0 with
        | Some n => if (n <? 4294967295)%N then Some n else None
        | None => None
        end
  end.

(** Creation of a property whose key is the array index [n]. *)
Fixpoint insert_index {A} (n : N) (k : string) (v : A) (o : obj A) : obj A :=
  match o with
  | [] => [(k, v)]
  | (k', v') :: rest =>
      match array_index k' with
      | Some n' =>
          if (n' <? n)%N then (k', v') :: insert_index n k v rest
          else (k, v) :: o
      | None => (k, v) :: o
      end
  end.

Fixpoint obj_replace {A} (o : obj A) (k : string) (v : A) : obj A :=
  match o with
  | [] => []
  | (k', v') :: rest =>
      if String.eqb k' k then (k', v) :: rest
      else (k', v') :: obj_replace rest k v
  end.

(** [o[k] = v] on an object without setters. *)
Definition obj_set {A} (o : obj A) (k : string) (v : A) : obj A :=
  if hasOwnProperty o k then obj_replace o k v
  else
    match array_index k with
    | Some n => insert_index n k v o
    | None => o ++ [(k, v)]
    end.

(** The names of the properties of [Object.prototype].  Each one holds a
    function, or, for [__proto__], an object: a truthy value. *)
Definition Object_prototype_properties : list string :=
  [ "constructor"; "__defineGetter__"; "__defineSetter__"; "hasOwnProperty";
    "__lookupGetter__"; "__lookupSetter__"; "isPrototypeOf";
    "propertyIsEnumerable"; "toString"; "valueOf"; "__proto__";
    "toLocaleString" ]%string.

Definition inherited (k : string) : bool :=
  existsb (String.eqb k) Object_prototype_properties.

(** ** Property values *)

Inductive value : Type :=
| VBool (b : bool)
| VString (s : string)
| VArray (elems : list string).

Definition ToBoolean (v : value) : bool :=
  match v with
  | VBool b => b
  | VString s => negb (String.eqb s EmptyString)
  | VArray _ => true
  end.

(** [!v]. *)
Definition js_not (v : value) : value := VBool (negb (ToBoolean v)).

(** [v instanceof Array]. *)
Definition instanceof_Array (v : value) : bool :=
  match v with
  | VArray _ => true
  | _ => false
  end.

(** [v.length]; [None] is [undefined]. *)
Definition js_length (v : value) : option nat :=
  match v with
  | VBool _ => None
  | VString s => Some (String.length s)
  | VArray elems => Some (List.length elems)
  end.

(** [v[index]]; [None] is [undefined]. *)
Definition js_index (v : value) (index : nat) : option string :=
  match v with
  | VBool _ => None
  | VString s => option_map str (String.get index s)
  | VArray elems => nth_error elems index
  end.

(** [a == b] where each side is a number or [undefined]. *)
Definition length_loose_eq (a b : option nat) : bool :=
  match a, b with
  | Some x, Some y => Nat.eqb x y
  | None, None => true
  | _, _ => false
  end.

(** [a != b] where each side is a string or [undefined]. *)
Definition element_loose_neq (a b : option string) : bool :=
  match a, b with
  | Some x, Some y => negb (String.eqb x y)
  | None, None => false
  | _, _ => true
  end.

(** ** JSON.stringify on strings and booleans *)

Definition hex_digit (n : nat) : ascii :=
  nth n [ "0"; "1"; "2"; "3"; "4"; "5"; "6"; "7"; "8"; "9";
          "a"; "b"; "c"; "d"; "e"; "f" ]%char "0"%char.

Definition escape_char (c : ascii) : string :=
  let n := nat_of_ascii c in
  if Ascii.eqb c dquote then String backslash dq
  else if Ascii.eqb c backslash then String backslash (str backslash)
  else if Nat.eqb n 8 then String backslash "b"
  else if Nat.eqb n 9 then String backslash "t"
  else if Nat.eqb n 10 then String backslash "n"
  else if Nat.eqb n 12 then String backslash "f"
  else if Nat.eqb n 13 then String backslash "r"
  else if Nat.ltb n 32 then
    String backslash ("u00" +++ str (hex_digit (n / 16)) +++ str (hex_digit (n mod 16)))
  else str c.

Fixpoint escape_string (s : string) : string :=
  match s with
  | EmptyString => EmptyString
  | String c rest => escape_char c +++ escape_string rest
  end.

Definition JSON_stringify_string (s : string) : string :=
  dq +++ escape_string s +++ dq.

Definition JSON_stringify (v : value) : string :=
  match v with
  | VBool true => "true"
  | VBool false => "false"
  | VString s => JSON_stringify_string s
  | VArray elems =>
      "[" +++ String.concat "," (map JSON_stringify_string elems) +++ "]"
  end.

(** ** The data of the generator *)

(** A Test Record, as the harness hands it to the completion callback. *)
Record Test : Type := mkTest {
  name : string;
  properties : obj value
}.

(** What the renderer walks: a property value, or an object whose properties
    are such data again. *)
Inductive json : Type :=
| JValue (v : value)
| JObject (props : list (string * json)).

Definition json_of_testMetadata (testMetadata : obj value) : json :=
  JObject (map (fun e => (fst e, JValue (snd e))) testMetadata).

Definition json_of_metadata (metadata : obj (obj value)) : obj json :=
  map (fun e => (fst e, json_of_testMetadata (snd e))) metadata.

(** ** The document *)

Inductive node : Type :=
| Text (data : string)
| Element (tagName : string) (attributes : list (string * string))
          (childNodes : list node).

Definition createElement (tagName : string) : node := Element tagName [] [].

Definition createTextNode (data : string) : node := Text data.

Fixpoint attr_set (attrs : list (string * string)) (k v : string)
  : list (string * string) :=
  match attrs with
  | [] => [(k, v)]
  | (k', v') :: rest =>
      if String.eqb k' k then (k', v) :: rest else (k', v') :: attr_set rest k v
  end.

Definition setAttribute (e : node) (k v : string) : node :=
  match e with
  | Element t attrs children => Element t (attr_set attrs k v) children
  | Text _ => e
  end.

Definition getAttribute (e : node) (k : string) : option string :=
  match e with
  | Element _ attrs _ => obj_get attrs k
  | Text _ => None
  end.

Definition appendChild (parent child : node) : node :=
  match parent with
  | Element t attrs children => Element t attrs (children ++ [child])
  | Text _ => parent
  end.

Definition has_id (id : string) (e : node) : bool :=
  match getAttribute e "id" with
  | Some i => String.eqb i id
  | None => false
  end.

(** [document.getElementById(id)] among the nodes of the document. *)
Definition getElementById (doc : list node) (id : string) : option node :=
  find (has_id id) doc.

(** [ref.parentNode.insertBefore(newChild, ref)] where [ref] is the first
    node with the given id. *)
Fixpoint insertBefore (doc : list node) (newChild : node) (id : string)
  : list node :=
  match doc with
  | [] => []
  | n :: rest =>
      if has_id id n then newChild :: n :: rest
      else n :: insertBefore rest newChild id
  end.

(** ** The state: the generator's field, the page-global binding, the
    document *)

(** [cached_metadata] is [None] when [window.cached_metadata != undefined]
    is false: the binding is absent (or holds [null]). *)
Record page : Type := mkPage {
  metadata : obj (obj value);
  cached_metadata : option (obj (obj value));
  document : list node
}.

Definition set_metadata (p : page) (m : obj (obj value)) : page :=
  mkPage m (cached_metadata p) (document p).

Definition set_cached_metadata (p : page) (c : obj (obj value)) : page :=
  mkPage (metadata p) (Some c) (document p).

Definition set_document (p : page) (d : list node) : page :=
  mkPage (metadata p) (cached_metadata p) d.

(** The generator when the script is loaded: [metadata: {}]. *)
Definition initial_page (cached : option (obj (obj value))) (doc : list node)
  : page :=
  mkPage [] cached doc.

(** ** metadata_generator *)

Definition metadataProperties : list string := ["help"; "assert"; "author"]%string.

Definition appendText (element : node) (text : string) : node :=
  appendChild element (createTextNode text).

(** The tail shared by [error] and [process]: before the summary when there
    is one, at the end of the body otherwise. *)
Definition insert_message (doc : list node) (messageElement : node)
  : list node :=
  match getElementById doc "summary" with
  | Some _ => insertBefore doc messageElement "summary"
  | None => doc ++ [messageElement]
  end.

Definition error_element (message : string) : node :=
  let messageElement := createElement "p" in
  let messageElement := setAttribute messageElement "class" "error" in
  appendText messageElement message.

Definition error (message : string) (p : page) : page :=
  set_document p (insert_message (document p) (error_element message)).

(** Lines 45 to 55, for [test.properties] without an own property named
    hasOwnProperty; [try_extractFromTest] below is the code on all objects. *)
Definition extractFromTest (test : Test) : obj value :=
  fold_left
    (fun testMetadata meta =>
       match obj_get (properties test) meta with
       | Some v => obj_set testMetadata meta v
       | None => testMetadata
       end)
    metadataProperties [].

(** The loop over the elements, [steps] being the number of iterations that
    are left. *)
Fixpoint compare_elements (cachedValue testValue : value) (index steps : nat)
  : bool :=
  match steps with
  | 0 => true
  | S steps' =>
      if element_loose_neq (js_index cachedValue index) (js_index testValue index)
      then false
      else compare_elements cachedValue testValue (S index) steps'
  end.

(** The condition of the check of line 72,
    [! cachedTestMetadata[meta] instanceof Array]: the negation applies to
    the left operand. *)
Definition sequence_check (cachedValue : value) : bool :=
  instanceof_Array (js_not cachedValue).

Definition iterations (len : option nat) : nat :=
  match len with
  | Some n => n
  | None => 0
  end.

(** The body of the loop over [metadataProperties]; [false] is
    [return false].  The two calls of [hasOwnProperty] are the two lookups:
    both found, one found, none found.  This is the code for two objects
    without an own property named hasOwnProperty; [try_compare_property]
    below is the code on all objects. *)
Definition compare_property (cachedTestMetadata testMetadata : obj value)
  (meta : string) : bool :=
  match obj_get cachedTestMetadata meta, obj_get testMetadata meta with
  | Some cachedValue, Some testValue =>
      if sequence_check cachedValue then false
      else if length_loose_eq (js_length cachedValue) (js_length testValue)
      then compare_elements cachedValue testValue 0
             (iterations (js_length cachedValue))
      else false
  | Some _, None => false
  | None, Some _ => false
  | None, None => true
  end.

(** The loop [for (var testName in this.metadata)], each name coming with
    [this.metadata[testName]]; the second component is [cached_metadata]
    when the loop is left. *)
Fixpoint validateCache_loop (entries cached : obj (obj value))
  : bool * obj (obj value) :=
  match entries with
  | [] => (true, cached)
  | (testName, testMetadata) :: rest =>
      match obj_get cached testName with
      | None => (false, cached)
      | Some cachedTestMetadata =>
          let cached := obj_delete cached testName in
          if forallb (compare_property cachedTestMetadata testMetadata)
               metadataProperties
          then validateCache_loop rest cached
          else (false, cached)
      end
  end.

(** The result, and [cached_metadata] as the call leaves it.  Lines 60 to
    95, for a cached mapping and entries without an own property named
    hasOwnProperty; [try_validateCache] below is the code on all objects. *)
Definition validateCache (metadata cached : obj (obj value))
  : bool * obj (obj value) :=
  match validateCache_loop metadata cached with
  | (false, cached') => (false, cached')
  | (true, cached') =>
      match own_keys cached' with
      | _ :: _ => (false, cached')
      | [] => (true, cached')
      end
  end.

Fixpoint jsonifyArray_loop (elems : list string) (index : nat)
  (indent output : string) : string :=
  match elems with
  | [] => output
  | e :: rest =>
      let output :=
        if Nat.ltb 0 index then output +++ "," +++ nl +++ "  " +++ indent
        else output in
      jsonifyArray_loop rest (S index) indent (output +++ JSON_stringify_string e)
  end.

(** The first branch is the case [1 == arrayValue.length]. *)
Definition jsonifyArray (arrayValue : list string) (indent : string) : string :=
  let output := "[" in
  let output :=
    match arrayValue with
    | [e] => output +++ JSON_stringify_string e
    | _ => jsonifyArray_loop arrayValue 0 indent output
    end in
  output +++ "]".

Definition sixteen_spaces : string := "                ".

Section JsonifyObject.

(** The rendering of the value of [property], lines 129 to 138. *)
Variable jsonifyValue : string -> json -> string -> string.

Fixpoint jsonifyObject_loop (props : obj json) (indent : string)
  (first : bool) (output : string) : string :=
  match props with
  | [] => output
  | (property, value) :: rest =>
      let output := if negb first then output +++ "," else output in
      let output :=
        output +++ nl +++ "  " +++ indent +++ dq +++ property +++ dq +++ ": " in
      let output := output +++ jsonifyValue property value indent in
      jsonifyObject_loop rest indent false output
  end.

Definition jsonifyObject_with (objectValue : obj json) (indent : string)
  : string :=
  let output := jsonifyObject_loop objectValue indent true "{" in
  let output :=
    if Nat.ltb 1 (String.length output) then output +++ nl +++ indent else output in
  output +++ "}".

End JsonifyObject.

Fixpoint jsonifyValue (property : string) (value : json) (indent : string)
  {struct value} : string :=
  match value with
  | JValue (VArray arrayValue) =>
      jsonifyArray arrayValue
        (indent +++ substring 0 (5 + String.length property) sixteen_spaces)
  | JObject objectValue =>
      jsonifyObject_with jsonifyValue objectValue (indent +++ "  ")
  | JValue v => JSON_stringify v
  end.

Definition jsonifyObject (objectValue : obj json) (indent : string) : string :=
  jsonifyObject_with jsonifyValue objectValue indent.

Definition generateSource (p : page) : string :=
  "<script id=" +++ dq +++ "test_metadata" +++ dq +++ ">" +++ nl +++
  "var cached_metadata = " +++
  jsonifyObject (json_of_metadata (metadata p)) EmptyString +++ nl +++
  "</script>" +++ nl.

(** [this.metadata[test.name]] as the condition of an [if]: an own property
    holds an object, an inherited one a function or an object. *)
Definition metadata_truthy (metadata : obj (obj value)) (testName : string)
  : bool :=
  match obj_get metadata testName with
  | Some _ => true
  | None => inherited testName
  end.

(** The first loop of [process]. *)
Fixpoint process_loop (tests : list Test) (p : page) : page :=
  match tests with
  | [] => p
  | test :: rest =>
      let p :=
        if metadata_truthy (metadata p) (name test)
        then error ("Duplicate test name: " +++ name test) p
        else set_metadata p
               (obj_set (metadata p) (name test) (extractFromTest test)) in
      process_loop rest p
  end.

Definition issue_element (message messageClass : string) : node :=
  let messageElement := createElement "p" in
  let messageElement := setAttribute messageElement "id" "metadata_issue" in
  let messageElement := setAttribute messageElement "class" messageClass in
  let messageElement := appendText messageElement message in
  let link := createElement "a" in
  let link := appendText link "Click for source code." in
  let link := setAttribute link "href" "#" in
  let link :=
    setAttribute link "onclick" "metadata_generator.addSourceElement()" in
  appendChild messageElement link.

(** The second part of [process], from line 195 on. *)
Definition report (p : page) : page :=
  let message : option string := None in
  let messageClass := "warning" in
  let '(message, messageClass, p) :=
    match cached_metadata p with
    | Some cached =>
        let '(valid, cached') := validateCache (metadata p) cached in
        let p := set_cached_metadata p cached' in
        if negb valid
        then (Some "Cached metadata out of sync. ", "error", p)
        else (message, messageClass, p)
    | None => (Some "Cached metdata not present. ", messageClass, p)
    end in
  match message with
  | Some message =>
      set_document p
        (insert_message (document p) (issue_element message messageClass))
  | None => p
  end.

(** Lines 184 to 227, for objects without an own property named
    hasOwnProperty; [try_process] below is the code on all objects. *)
Definition process (tests : list Test) (p : page) : page :=
  report (process_loop tests p).

Definition source_element (p : page) : node :=
  let sourceWrapper := createElement "div" in
  let sourceWrapper := setAttribute sourceWrapper "id" "metadata_source" in
  let instructions := createElement "p" in
  let instructions :=
    appendText instructions
      "Copy the following into the <head> element of the test or the test's metadata sidecar file:" in
  let sourceWrapper := appendChild sourceWrapper instructions in
  let sourceElement := createElement "pre" in
  let sourceElement := appendText sourceElement (generateSource p) in
  appendChild sourceWrapper sourceElement.

(** The wrapper takes the place of the first node with the given id. *)
Fixpoint replace_by_id (doc : list node) (id : string) (new : node)
  : list node :=
  match doc with
  | [] => []
  | n :: rest =>
      if has_id id n then new :: rest else n :: replace_by_id rest id new
  end.

(** [None] when there is no [metadata_issue] element: [messageElement] is
    [null] and reading its [parentNode] throws. *)
Definition addSourceElement (p : page) : option page :=
  match getElementById (document p) "metadata_issue" with
  | Some _ =>
      Some (set_document p
              (replace_by_id (document p) "metadata_issue" (source_element p)))
  | None => None
  end.

(** ** Definitions used by the statements *)

Definition obj_delete_all {A} (o : obj A) (ks : list string) : obj A :=
  fold_left obj_delete ks o.

Definition is_empty {A} (o : obj A) : bool :=
  match own_keys o with
  | [] => true
  | _ :: _ => false
  end.

(** [compare_property] with the check of line 72 taken out. *)
Definition compare_property_unchecked
  (cachedTestMetadata testMetadata : obj value) (meta : string) : bool :=
  match obj_get cachedTestMetadata meta, obj_get testMetadata meta with
  | Some cachedValue, Some testValue =>
      if length_loose_eq (js_length cachedValue) (js_length testValue)
      then compare_elements cachedValue testValue 0
             (iterations (js_length cachedValue))
      else false
  | Some _, None => false
  | None, Some _ => false
  | None, None => true
  end.

(** [newChild] has been put somewhere among the nodes of [before]. *)
Definition inserted (before after : list node) (newChild : node) : Prop :=
  exists l1 l2, before = l1 ++ l2 /\ after = l1 ++ newChild :: l2.

Definition link_element : node :=
  Element "a"
    [("href", "#"); ("onclick", "metadata_generator.addSourceElement()")]
    [Text "Click for source code."].

(** The entry of the extracted mapping passes the body of the first loop
    of [validateCache]. *)
Definition entry_matches (cached : obj (obj value))
  (entry : string * obj value) : Prop :=
  exists cachedTestMetadata,
    obj_get cached (fst entry) = Some cachedTestMetadata
    /\ forallb (compare_property cachedTestMetadata (snd entry))
         metadataProperties = true.

(** Two sequences have equal length and equal elements at every index. *)
Definition same_sequence (a b : list string) : Prop :=
  length a = length b
  /\ forall index, index < length a -> nth_error a index = nth_error b index.

(** The data model's invariant: under a recognized key there is a sequence
    of strings. *)
Definition sequence_valued (m : obj (obj value)) : Prop :=
  forall testName testMetadata meta v,
    obj_get m testName = Some testMetadata ->
    In meta metadataProperties ->
    obj_get testMetadata meta = Some v ->
    exists elems, v = VArray elems.

(** Deep equality of the two mappings restricted to the recognized keys,
    with identical sets of test names: every extracted name is in the cache;
    for both sub-mappings of a name a recognized key is on both sides or on
    neither, and when it is on both the two sequences are the same; no cached
    name is left unmatched. *)
Definition restricted_deep_equal (extracted cached : obj (obj value)) : Prop :=
  (forall testName,
      hasOwnProperty extracted testName = true ->
      hasOwnProperty cached testName = true)
  /\ (forall testName testMetadata cachedTestMetadata meta,
         obj_get extracted testName = Some testMetadata ->
         obj_get cached testName = Some cachedTestMetadata ->
         In meta metadataProperties ->
         hasOwnProperty testMetadata meta = hasOwnProperty cachedTestMetadata meta
         /\ forall a b,
             obj_get testMetadata meta = Some (VArray a) ->
             obj_get cachedTestMetadata meta = Some (VArray b) ->
             same_sequence a b)
  /\ (forall testName,
         hasOwnProperty cached testName = true ->
         hasOwnProperty extracted testName = true).

Definition sequence_valuedb (m : obj (obj value)) : bool :=
  forallb
    (fun entry : string * obj value =>
       forallb
         (fun meta =>
            match obj_get (snd entry) meta with
            | Some (VArray _) => true
            | Some _ => false
            | None => true
            end)
         metadataProperties)
    m.


(** One call of [error] for each of the tests, in order. *)
Definition report_duplicates (doc : list node) (tests : list Test)
  : list node :=
  fold_left
    (fun doc test =>
       insert_message doc (error_element ("Duplicate test name: " +++ name test)))
    tests doc.


(** What [jsonifyArray] puts between two elements. *)
Definition continuation (indent : string) : string :=
  "," +++ nl +++ "  " +++ indent.

Fixpoint continued (indent : string) (elems : list string) : string :=
  match elems with
  | [] => EmptyString
  | e :: rest =>
      continuation indent +++ JSON_stringify_string e +++ continued indent rest
  end.

Fixpoint spaces (n : nat) : string :=
  match n with
  | 0 => EmptyString
  | S n' => String " " (spaces n')
  end.

Fixpoint contains_newline (s : string) : bool :=
  match s with
  | EmptyString => false
  | String c rest => Ascii.eqb c newline || contains_newline rest
  end.

Definition same_names (a b : obj (obj value)) : Prop :=
  forall testName, hasOwnProperty a testName = hasOwnProperty b testName.

(** ** Reading the source text back

    Modelled from the spec: the step that turns the pasted source text into
    the page-global binding [cached_metadata] is no function of
    testharnessreport.js; the page does it.  The specification names it in
    its sections 3 (a binding established by embedded markup), 4.3 (pasting
    the output back into a document head reinstates the cache for the next
    run) and 6 (a script-like block containing one assignment statement).
    The reader below stands for that step, in its two parts: the markup
    parser cuts the text of the script element out of the pasted text
    ([script_text]), and the script engine reads the one statement of that
    text ([read_metadata]).  The literals it reads are those of the model:
    an object literal with its property names between double quotes, string
    literals with the escapes of JSON, Array literals of strings, [true] and
    [false], and white space between the tokens.  It returns the properties
    in the order of the text; any other text gives no binding. *)

Definition is_white_space (c : ascii) : bool :=
  Ascii.eqb c " " || Ascii.eqb c newline
  || Ascii.eqb c "009" || Ascii.eqb c "013".

Fixpoint skip_white_space (s : string) : string :=
  match s with
  | EmptyString => s
  | String c rest => if is_white_space c then skip_white_space rest else s
  end.

Definition hex_value (c : ascii) : option nat :=
  let n := nat_of_ascii c in
  if Nat.leb 48 n && Nat.leb n 57 then Some (n - 48)
  else if Nat.leb 97 n && Nat.leb n 102 then Some (n - 87)
  else if Nat.leb 65 n && Nat.leb n 70 then Some (n - 55)
  else None.

(** The character that a backslash followed by [c] stands for. *)
Definition unescape_char (c : ascii) : option ascii :=
  if Ascii.eqb c dquote then Some dquote
  else if Ascii.eqb c backslash then Some backslash
  else if Ascii.eqb c "/" then Some "/"%char
  else if Ascii.eqb c "b" then Some "008"%char
  else if Ascii.eqb c "t" then Some "009"%char
  else if Ascii.eqb c "n" then Some "010"%char
  else if Ascii.eqb c "f" then Some "012"%char
  else if Ascii.eqb c "r" then Some "013"%char
  else None.

Definition with_first (c : ascii) (r : option (string * string))
  : option (string * string) :=
  match r with
  | Some (s, rest) => Some (String c s, rest)
  | None => None
  end.

(** A string literal from behind its opening quote: the string, and the
    text behind the closing quote. *)
Fixpoint read_string (s : string) : option (string * string) :=
  match s with
  | EmptyString => None
  | String c rest =>
      if Ascii.eqb c dquote then Some (EmptyString, rest)
      else if Ascii.eqb c backslash then
        match rest with
        | EmptyString => None
        | String e rest' =>
            if Ascii.eqb e "u" then
              match rest' with
              | String h1 (String h2 (String h3 (String h4 rest''))) =>
                  match hex_value h1, hex_value h2, hex_value h3, hex_value h4 with
                  | Some 0, Some 0, Some a, Some b =>
                      with_first (ascii_of_nat (16 * a + b)) (read_string rest'')
                  | _, _, _, _ => None
                  end
              | _ => None
              end
            else
              match unescape_char e with
              | Some c' => with_first c' (read_string rest')
              | None => None
              end
        end
      else if Ascii.eqb c newline || Ascii.eqb c "013" then None
      else with_first c (read_string rest)
  end.

(** The elements of an Array literal from its first element on; [fuel]
    bounds the number of elements. *)
Fixpoint read_elements (fuel : nat) (s : string)
  : option (list string * string) :=
  match fuel with
  | 0 => None
  | S fuel' =>
      match s with
      | EmptyString => None
      | String c body =>
          if Ascii.eqb c dquote then
            match read_string body with
            | Some (e, rest) =>
                match skip_white_space rest with
                | EmptyString => None
                | String d rest' =>
                    if Ascii.eqb d "," then
                      match read_elements fuel' (skip_white_space rest') with
                      | Some (es, rest'') => Some (e :: es, rest'')
                      | None => None
                      end
                    else if Ascii.eqb d "]" then Some ([e], rest')
                    else None
                end
            | None => None
            end
          else None
      end
  end.

(** An Array literal from behind its opening bracket. *)
Definition read_array (s : string) : option (list string * string) :=
  match skip_white_space s with
  | EmptyString => None
  | String c rest =>
      if Ascii.eqb c "]" then Some ([], rest)
      else read_elements (String.length s) (String c rest)
  end.

Fixpoint strip_prefix (pre s : string) : option string :=
  match pre with
  | EmptyString => Some s
  | String c pre' =>
      match s with
      | String d s' => if Ascii.eqb c d then strip_prefix pre' s' else None
      | EmptyString => None
      end
  end.

Definition read_value (s : string) : option (value * string) :=
  match s with
  | EmptyString => None
  | String c rest =>
      if Ascii.eqb c "[" then
        match read_array rest with
        | Some (elems, rest') => Some (VArray elems, rest')
        | None => None
        end
      else if Ascii.eqb c dquote then
        match read_string rest with
        | Some (x, rest') => Some (VString x, rest')
        | None => None
        end
      else
        match strip_prefix "true" s, strip_prefix "false" s with
        | Some rest', _ => Some (VBool true, rest')
        | None, Some rest' => Some (VBool false, rest')
        | None, None => None
        end
  end.

Section ReadObject.


Context {A : Type}.
Variable read_property_value : string -> option (A * string).

(** The properties of an object literal from its first property name on;
    [fuel] bounds their number. *)
Fixpoint read_properties (fuel : nat) (s : string)
  : option (obj A * string) :=
  match fuel with
  | 0 => None
  | S fuel' =>
      match s with
      | EmptyString => None
      | String c body =>
          if Ascii.eqb c dquote then
            match read_string body with
            | Some (property, rest) =>
                match skip_white_space rest with
                | EmptyString => None
                | String d rest1 =>
                    if Ascii.eqb d ":" then
                      match read_property_value (skip_white_space rest1) with
                      | Some (v, rest2) =>
                          match skip_white_space rest2 with
                          | EmptyString => None
                          | String d' rest3 =>
                              if Ascii.eqb d' "," then
                                match read_properties fuel'
                                        (skip_white_space rest3) with
                                | Some (ps, rest4) =>
                                    Some ((property, v) :: ps, rest4)
                                | None => None
                                end
                              else if Ascii.eqb d' "}" then
                                Some ([(property, v)], rest3)
                              else None
                          end
                      | None => None
                      end
                    else None
                end
            | None => None
            end
          else None
      end
  end.

Definition read_object (s : string) : option (obj A * string) :=
  match s with
  | EmptyString => None
  | String c rest =>
      if Ascii.eqb c "{" then
        match skip_white_space rest with
        | EmptyString => None
        | String d rest' =>
            if Ascii.eqb d "}" then Some ([], rest')
            else read_properties (String.length rest) (String d rest')
        end
      else None
  end.

End ReadObject.

Definition read_metadata (s : string) : option (obj (obj value) * string) :=
  read_object (read_object read_value) s.

(** *** The script element

    The markup parser cuts the text of the script element out of the pasted
    text before the script engine sees it.  Inside a script element the
    tokenizer knows three states: script data, and, after the opening of a
    comment, escaped and double escaped script data, where it counts the
    hyphens just read.  The element ends at the first end tag of the name
    script, in any case of the letters, that is read in script data or in
    escaped script data. *)

Definition lower_case (c : ascii) : ascii :=
  let n := nat_of_ascii c in
  if Nat.leb 65 n && Nat.leb n 90 then ascii_of_nat (n + 32) else c.

(** The characters that end a tag name. *)
Definition ends_tag_name (c : ascii) : bool :=
  Ascii.eqb c "009" || Ascii.eqb c "010" || Ascii.eqb c "012"
  || Ascii.eqb c "013" || Ascii.eqb c " " || Ascii.eqb c "/"
  || Ascii.eqb c ">".

(** [s] goes on with [tagName], in any case of the letters, and a character
    that ends a tag name. *)
Fixpoint starts_tag (tagName s : string) : bool :=
  match tagName, s with
  | EmptyString, String c _ => ends_tag_name c
  | String t tagName', String c s' =>
      Ascii.eqb t (lower_case c) && starts_tag tagName' s'
  | _, EmptyString => false
  end.

Inductive script_state : Type :=
| ScriptData
| ScriptDataEscaped (dashes : nat)
| ScriptDataDoubleEscaped (dashes : nat).

(** The state after a character that is no less-than sign. *)
Definition after_character (state : script_state) (c : ascii) : script_state :=
  match state with
  | ScriptData => ScriptData
  | ScriptDataEscaped dashes =>
      if Ascii.eqb c "-" then ScriptDataEscaped (S dashes)
      else if Ascii.eqb c ">" && Nat.leb 2 dashes then ScriptData
      else ScriptDataEscaped 0
  | ScriptDataDoubleEscaped dashes =>
      if Ascii.eqb c "-" then ScriptDataDoubleEscaped (S dashes)
      else if Ascii.eqb c ">" && Nat.leb 2 dashes then ScriptData
      else ScriptDataDoubleEscaped 0
  end.

(** Modelled from the spec: the markup parser of the page on the embedded
    markup of section 6, which is no code of testharnessreport.js.  The text
    of the script element whose start tag has just been read, when the
    element is closed. *)
Fixpoint script_text (state : script_state) (s : string) : option string :=
  match s with
  | EmptyString => None
  | String c rest =>
      if Ascii.eqb c "<" then
        match state with
        | ScriptData =>
            if starts_tag "/script" rest then Some EmptyString
            else
              option_map (String c)
                (script_text
                   (match strip_prefix "!--" rest with
                    | Some _ => ScriptDataEscaped 0
                    | None => ScriptData
                    end) rest)
        | ScriptDataEscaped _ =>
            if starts_tag "/script" rest then Some EmptyString
            else
              option_map (String c)
                (script_text
                   (if starts_tag "script" rest
                    then ScriptDataDoubleEscaped 0
                    else ScriptDataEscaped 0) rest)
        | ScriptDataDoubleEscaped _ =>
            option_map (String c)
              (script_text
                 (if starts_tag "/script" rest
                  then ScriptDataEscaped 0
                  else ScriptDataDoubleEscaped 0) rest)
        end
      else option_map (String c) (script_text (after_character state c) rest)
  end.

Definition script_start_tag : string :=
  "<script id=" +++ dq +++ "test_metadata" +++ dq +++ ">".

Definition source_statement : string := nl +++ "var cached_metadata = ".

(** Modelled from the spec: what [window.cached_metadata] is bound to by the
    pasted text, the step of the page that sections 3, 4.3 and 6 of the
    specification name and that testharnessreport.js leaves to the page.
    The text of the script element is to be the one statement of
    [generateSource], with the literal read as above. *)
Definition read_source (source : string) : option (obj (obj value)) :=
  match strip_prefix script_start_tag source with
  | Some markup =>
      match script_text ScriptData markup with
      | Some script =>
          match strip_prefix source_statement script with
          | Some literal =>
              match read_metadata literal with
              | Some (m, rest) =>
                  match skip_white_space rest with
                  | EmptyString => Some m
                  | String _ _ => None
                  end
              | None => None
              end
          | None => None
          end
      | None => None
      end
  | None => None
  end.

(** No less-than sign in the text. *)
Fixpoint no_markup (s : string) : bool :=
  match s with
  | EmptyString => true
  | String c rest => negb (Ascii.eqb c "<") && no_markup rest
  end.

Definition no_markup_value (v : value) : bool :=
  match v with
  | VBool _ => true
  | VString s => no_markup s
  | VArray elems => forallb no_markup elems
  end.

Definition no_markup_metadata (m : obj (obj value)) : Prop :=
  Forall
    (fun entry =>
       no_markup (fst entry) = true
       /\ Forall
            (fun property =>
               no_markup (fst property) = true
               /\ no_markup_value (snd property) = true)
            (snd entry))
    m.

(** A name that [JSON.stringify] would leave as it is between the quotes: no
    double quote, no backslash, no control character. *)
Definition safe_name (s : string) : Prop := escape_string s = s.

Definition safe_metadata (m : obj (obj value)) : Prop :=
  Forall (fun e => safe_name (fst e) /\ Forall safe_name (own_keys (snd e))) m.

(** What the loop of [jsonifyObject] appends to [output]. *)
Fixpoint properties_text (jsonifyValue : string -> json -> string -> string)
  (props : obj json) (indent : string) (first : bool) : string :=
  match props with
  | [] => EmptyString
  | (property, value) :: rest =>
      (if first then EmptyString else ",") +++
      nl +++ "  " +++ indent +++ dq +++ property +++ dq +++ ": " +++
      jsonifyValue property value indent +++
      properties_text jsonifyValue rest indent false
  end.

Definition rendered {A} (inj : A -> json) (entries : obj A) : obj json :=
  map (fun e => (fst e, inj (snd e))) entries.

(** The reader of property values gives each value of [entries] back from
    its rendering at the indent of [n] spaces. *)
Definition reads_back {A} (read_property_value : string -> option (A * string))
  (jv : string -> json -> string -> string) (inj : A -> json) (n : nat)
  (entries : obj A) : Prop :=
  forall property a rest,
    In (property, a) entries ->
    skip_white_space (jv property (inj a) (spaces n) +++ rest) =
    jv property (inj a) (spaces n) +++ rest
    /\ read_property_value (jv property (inj a) (spaces n) +++ rest) =
       Some (a, rest).

(** ** Definitions used by the further statements *)

(** The nodes before the first node with the given id. *)
Fixpoint before_id (id : string) (doc : list node) : list node :=
  match doc with
  | [] => []
  | n :: rest => if has_id id n then [] else n :: before_id id rest
  end.

(** The nodes from the first node with the given id on. *)
Fixpoint from_id (id : string) (doc : list node) : list node :=
  match doc with
  | [] => []
  | n :: rest => if has_id id n then doc else from_id id rest
  end.

(** The nodes behind the first node with the given id. *)
Definition after_id (id : string) (doc : list node) : list node :=
  tl (from_id id doc).

Definition duplicate_message (test : Test) : node :=
  error_element ("Duplicate test name: " +++ name test).


(** What the comparison of line 75 to 84 asks of two values: the same
    [length], and the same element at every index below it. *)
Definition same_as_compared (cachedValue testValue : value) : Prop :=
  js_length cachedValue = js_length testValue
  /\ forall i, i < iterations (js_length cachedValue) ->
               js_index cachedValue i = js_index testValue i.

(** Each recognized key is on both sides, with values that compare the same,
    or on neither. *)
Definition properties_agree (cachedTestMetadata testMetadata : obj value)
  : Prop :=
  forall meta,
    In meta metadataProperties ->
    match obj_get cachedTestMetadata meta, obj_get testMetadata meta with
    | Some cachedValue, Some testValue => same_as_compared cachedValue testValue
    | None, None => True
    | _, _ => False
    end.

(** ** The calls of [hasOwnProperty] through the object

    [o.hasOwnProperty(k)] looks the method up on [o] first.  An own property
    named hasOwnProperty holds a value of the model, which cannot be called:
    the call throws a TypeError.  [hasOwnProperty] above is the method of
    [Object.prototype] itself; the functions [extractFromTest],
    [validateCache] and [process] above are the code on objects that have no
    own property of that name.  The functions below are the code on all
    objects of the model; where nothing hides the method both agree
    ([try_extractFromTest_eq], [try_validateCache_eq], [try_process_eq]). *)

(** How a call ends: it returns a result, or it throws and leaves the state
    [s] behind. *)
Inductive completion (R S : Type) : Type :=
| Returns (r : R)
| Throws (s : S).

Arguments Returns {R S} r.
Arguments Throws {R S} s.

Definition hides_hasOwnProperty {A} (o : obj A) : bool :=
  hasOwnProperty o "hasOwnProperty".

(** [o.hasOwnProperty(k)]; [None] is the TypeError. *)
Definition call_hasOwnProperty {A} (o : obj A) (k : string) : option bool :=
  if hides_hasOwnProperty o then None else Some (hasOwnProperty o k).

(** The loop of [extractFromTest], lines 48 to 53. *)
Fixpoint try_extract_loop (properties : obj value) (metas : list string)
  (testMetadata : obj value) : completion (obj value) unit :=
  match metas with
  | [] => Returns testMetadata
  | meta :: rest =>
      match call_hasOwnProperty properties meta with
      | None => Throws tt
      | Some _ =>
          try_extract_loop properties rest
            match obj_get properties meta with
            | Some v => obj_set testMetadata meta v
            | None => testMetadata
            end
      end
  end.

Definition try_extractFromTest (test : Test) : completion (obj value) unit :=
  try_extract_loop (properties test) metadataProperties [].

(** Lines 72 to 84, for the two values of a key that is on both sides. *)
Definition compare_values (cachedValue testValue : value) : bool :=
  if sequence_check cachedValue then false
  else if length_loose_eq (js_length cachedValue) (js_length testValue)
  then compare_elements cachedValue testValue 0
         (iterations (js_length cachedValue))
  else false.

(** The body of the loop over the keys, lines 70 to 88, with its calls of
    [hasOwnProperty] in the order of evaluation; [None] is the TypeError,
    [Some false] is [return false]. *)
Definition try_compare_property (cachedTestMetadata testMetadata : obj value)
  (meta : string) : option bool :=
  match call_hasOwnProperty cachedTestMetadata meta with
  | None => None
  | Some true =>
      match call_hasOwnProperty testMetadata meta with
      | None => None
      | Some true =>
          match obj_get cachedTestMetadata meta, obj_get testMetadata meta with
          | Some cachedValue, Some testValue =>
              Some (compare_values cachedValue testValue)
          | _, _ => Some false
          end
      | Some false => Some false
      end
  | Some false =>
      match call_hasOwnProperty testMetadata meta with
      | None => None
      | Some true => Some false
      | Some false => Some true
      end
  end.

Fixpoint try_compare_properties (cachedTestMetadata testMetadata : obj value)
  (metas : list string) : option bool :=
  match metas with
  | [] => Some true
  | meta :: rest =>
      match try_compare_property cachedTestMetadata testMetadata meta with
      | None => None
      | Some false => Some false
      | Some true =>
          try_compare_properties cachedTestMetadata testMetadata rest
      end
  end.

(** The first loop of [validateCache], lines 61 to 90. *)
Fixpoint try_validateCache_loop (entries cached : obj (obj value))
  : completion (bool * obj (obj value)) (obj (obj value)) :=
  match entries with
  | [] => Returns (true, cached)
  | (testName, testMetadata) :: rest =>
      match call_hasOwnProperty cached testName with
      | None => Throws cached
      | Some _ =>
          match obj_get cached testName with
          | None => Returns (false, cached)
          | Some cachedTestMetadata =>
              let cached := obj_delete cached testName in
              match try_compare_properties cachedTestMetadata testMetadata
                      metadataProperties with
              | None => Throws cached
              | Some false => Returns (false, cached)
              | Some true => try_validateCache_loop rest cached
              end
          end
      end
  end.

(** [validateCache]: the result with [cached_metadata] as the call leaves
    it, or [cached_metadata] when the TypeError leaves the function. *)
Definition try_validateCache (metadata cached : obj (obj value))
  : completion (bool * obj (obj value)) (obj (obj value)) :=
  match try_validateCache_loop metadata cached with
  | Throws cached' => Throws cached'
  | Returns (false, cached') => Returns (false, cached')
  | Returns (true, cached') =>
      match own_keys cached' with
      | _ :: _ => Returns (false, cached')
      | [] => Returns (true, cached')
      end
  end.

(** The first loop of [process]; a TypeError of [extractFromTest] leaves
    [process] with the page as it is then. *)
Fixpoint try_process_loop (tests : list Test) (p : page)
  : completion page page :=
  match tests with
  | [] => Returns p
  | test :: rest =>
      if metadata_truthy (metadata p) (name test)
      then try_process_loop rest
             (error ("Duplicate test name: " +++ name test) p)
      else
        match try_extractFromTest test with
        | Throws _ => Throws p
        | Returns testMetadata =>
            try_process_loop rest
              (set_metadata p (obj_set (metadata p) (name test) testMetadata))
        end
  end.

(** The second part of [process], from line 195 on. *)
Definition try_report (p : page) : completion page page :=
  match cached_metadata p with
  | Some cached =>
      match try_validateCache (metadata p) cached with
      | Throws cached' => Throws (set_cached_metadata p cached')
      | Returns (valid, cached') =>
          let p := set_cached_metadata p cached' in
          if negb valid
          then Returns
                 (set_document p
                    (insert_message (document p)
                       (issue_element "Cached metadata out of sync. " "error")))
          else Returns p
      end
  | None =>
      Returns
        (set_document p
           (insert_message (document p)
              (issue_element "Cached metdata not present. " "warning")))
  end.

Definition try_process (tests : list Test) (p : page) : completion page page :=
  match try_process_loop tests p with
  | Throws q => Throws q
  | Returns q => try_report q
  end.

(** The page that a call leaves, however it ends. *)
Definition page_left (c : completion page page) : page :=
  match c with
  | Returns q => q
  | Throws q => q
  end.

(** Nothing in the two mappings hides [hasOwnProperty]. *)
Definition nothing_hidden (metadata cached : obj (obj value)) : Prop :=
  Forall (fun entry => hides_hasOwnProperty (snd entry) = false) metadata
  /\ hides_hasOwnProperty cached = false
  /\ Forall (fun entry => hides_hasOwnProperty (snd entry) = false) cached.

Definition nothing_hiddenb (metadata cached : obj (obj value)) : bool :=
  forallb (fun entry : string * obj value =>
             negb (hides_hasOwnProperty (snd entry))) metadata
  && negb (hides_hasOwnProperty cached)
  && forallb (fun entry : string * obj value =>
                negb (hides_hasOwnProperty (snd entry))) cached.

(** Under help, assert and author there are sequences of strings. *)
Definition holds_sequences (m : obj (obj value)) : Prop :=
  forall testName testMetadata meta v,
    obj_get m testName = Some testMetadata ->
    In meta ["help"; "assert"; "author"] ->
    obj_get testMetadata meta = Some v ->
    exists elems, v = VArray elems.

(** The two mappings have the same test names and, under each name, the same
    value, or none, under each of help, assert and author. *)
Definition deep_equal_on_recognized_keys (extracted cached : obj (obj value))
  : Prop :=
  (forall testName,
      hasOwnProperty extracted testName = hasOwnProperty cached testName)
  /\ (forall testName testMetadata cachedTestMetadata meta,
         obj_get extracted testName = Some testMetadata ->
         obj_get cached testName = Some cachedTestMetadata ->
         In meta ["help"; "assert"; "author"] ->
         obj_get testMetadata meta = obj_get cachedTestMetadata meta).

(** [cached_metadata] as a call of [validateCache] leaves it, however it
    ends. *)
Definition cache_left
  (c : completion (bool * obj (obj value)) (obj (obj value)))
  : obj (obj value) :=
  match c with
  | Returns (_, cached') => cached'
  | Throws cached' => cached'
  end.

(** The tests of a run that [process] finds in [this.metadata] at line 187,
    in their order: [found] tells the names found when the run starts, and a
    name that is not found is found from then on, line 191 having stored an
    object under it. *)
Fixpoint found_in_metadata (found : string -> bool) (tests : list Test)
  : list Test :=
  match tests with
  | [] => []
  | test :: rest =>
      if found (name test)
      then test :: found_in_metadata found rest
      else found_in_metadata
             (fun testName => String.eqb (name test) testName || found testName)
             rest
  end.

(** ** Sample data *)

Definition t1 : Test := mkTest "t1" [("help", VArray ["h1"])].
Definition t2 : Test := mkTest "t2" [("assert", VArray ["a1"; "a2"])].
Definition t_constructor : Test := mkTest "constructor" [("help", VArray ["h"])].

(** Two tests without properties, and one test whose name has in it the text
    that the renderer puts between the former two. *)
Definition t_plain1 : Test := mkTest "t1" [].
Definition t_plain2 : Test := mkTest "t2" [].
Definition t_quoted : Test :=
  mkTest ("t1" +++ dq +++ ": {}," +++ nl +++ "  " +++ dq +++ "t2") [].

(** A test whose name is a, a double quote, b. *)
Definition t_ab : Test := mkTest ("a" +++ dq +++ "b") [].

(** * Properties *)

(** ** Objects *)

Section Objects.

Context {A : Type}.
Implicit Types (o : obj A) (k : string) (v : A).

Lemma hasOwnProperty_get o k :
  hasOwnProperty o k = true <-> exists v, obj_get o k = Some v.
Proof.
  unfold hasOwnProperty. destruct (obj_get o k) as [v|].
  - split; [eauto | reflexivity].
  - split; [discriminate | intros [v H]; discriminate].
Qed.


Lemma obj_get_In o k v : obj_get o k = Some v -> In (k, v) o.
Proof.
  induction o as [|[k' v'] rest IH]; simpl; [discriminate|].
  destruct (String.eqb_spec k' k) as [->|Hne].
  - intros [= ->]. now left.
  - intros H. right. now apply IH.
Qed.

Lemma own_keys_get o k : In k (own_keys o) <-> hasOwnProperty o k = true.
Proof.
  unfold hasOwnProperty.
  induction o as [|[k' v'] rest IH]; simpl.
  - split; [tauto | discriminate].
  - destruct (String.eqb_spec k' k) as [->|Hne].
    + split; [reflexivity | now left].
    + rewrite <- IH. split; [intros [H|H]; [congruence | exact H] | now right].
Qed.

Lemma obj_get_app o1 o2 k :
  obj_get (o1 ++ o2) k =
  match obj_get o1 k with
  | Some v => Some v
  | None => obj_get o2 k
  end.
Proof.
  induction o1 as [|[k' v'] rest IH]; simpl; [reflexivity|].
  destruct (String.eqb k' k); [reflexivity | exact IH].
Qed.

Lemma obj_get_replace o k v k' :
  obj_get (obj_replace o k v) k' =
  if String.eqb k k'
  then match obj_get o k with Some _ => Some v | None => None end
  else obj_get o k'.
Proof.
  induction o as [|[k0 v0] rest IH]; simpl.
  - now destruct (String.eqb k k').
  - destruct (String.eqb_spec k0 k) as [->|Hne]; simpl.
    + destruct (String.eqb_spec k k'); reflexivity.
    + destruct (String.eqb_spec k0 k') as [->|Hne'].
      * destruct (String.eqb_spec k k'); [congruence | reflexivity].
      * exact IH.
Qed.

Lemma obj_get_insert_index n o k v k' :
  obj_get o k = None ->
  obj_get (insert_index n k v o) k' =
  if String.eqb k k' then Some v else obj_get o k'.
Proof.
  induction o as [|[k0 v0] rest IH]; simpl; [reflexivity|].
  destruct (String.eqb_spec k0 k) as [->|Hne]; [discriminate|].
  intros Hnone.
  destruct (array_index k0) as [n'|]; [destruct (n' <? n)%N|]; simpl;
    try reflexivity.
  destruct (String.eqb_spec k0 k') as [->|Hne'].
  - destruct (String.eqb_spec k k'); [congruence | reflexivity].
  - now apply IH.
Qed.

Lemma obj_get_set o k v k' :
  obj_get (obj_set o k v) k' =
  if String.eqb k k' then Some v else obj_get o k'.
Proof.
  unfold obj_set, hasOwnProperty.
  destruct (obj_get o k) as [v0|] eqn:Hk.
  - rewrite obj_get_replace, Hk. reflexivity.
  - destruct (array_index k) as [n|].
    + now apply obj_get_insert_index.
    + rewrite obj_get_app. simpl.
      destruct (String.eqb_spec k k') as [<-|Hne].
      * now rewrite Hk.
      * now destruct (obj_get o k').
Qed.

Lemma obj_get_delete o k k' :
  obj_get (obj_delete o k) k' =
  if String.eqb k k' then None else obj_get o k'.
Proof.
  unfold obj_delete.
  induction o as [|[k0 v0] rest IH]; simpl.
  - now destruct (String.eqb k k').
  - destruct (String.eqb_spec k0 k) as [->|Hne]; simpl.
    + rewrite IH. destruct (String.eqb_spec k k'); reflexivity.
    + destruct (String.eqb_spec k0 k') as [->|Hne']; [|exact IH].
      destruct (String.eqb_spec k k'); [congruence | reflexivity].
Qed.

Lemma obj_delete_all_filter o ks :
  obj_delete_all o ks =
  filter (fun e => negb (existsb (String.eqb (fst e)) ks)) o.
Proof.
  unfold obj_delete_all. revert o.
  induction ks as [|k ks IH]; intros o; simpl.
  - induction o as [|e o IHo]; simpl; [reflexivity | now rewrite <- IHo].
  - rewrite IH. unfold obj_delete.
    induction o as [|e o IHo]; simpl; [reflexivity|].
    destruct (String.eqb (fst e) k); simpl.
    + exact IHo.
    + destruct (existsb (String.eqb (fst e)) ks); simpl; [exact IHo|].
      now rewrite IHo.
Qed.

Lemma obj_delete_all_empty o ks :
  obj_delete_all o ks = [] <-> (forall k, In k (own_keys o) -> In k ks).
Proof.
  rewrite obj_delete_all_filter.
  induction o as [|[k0 v0] rest IH]; simpl.
  - split; [tauto | reflexivity].
  - destruct (existsb (String.eqb k0) ks) eqn:Hex; simpl.
    + rewrite IH. apply existsb_exists in Hex as [x [Hx Heq]].
      apply String.eqb_eq in Heq. subst x.
      split.
      * intros H k [<-|Hk]; [exact Hx | now apply H].
      * intros H k Hk. apply H. now right.
    + split; [discriminate|].
      intros H. assert (Hin : In k0 ks) by (apply H; now left).
      assert (existsb (String.eqb k0) ks = true).
      { apply existsb_exists. exists k0. split; [exact Hin | apply String.eqb_refl]. }
      congruence.
Qed.

End Objects.

(** ** Extractor *)

Lemma extractFromTest_cases (test : Test) :
  extractFromTest test =
  match obj_get (properties test) "help" with
  | Some v => [("help", v)]
  | None => []
  end ++
  match obj_get (properties test) "assert" with
  | Some v => [("assert", v)]
  | None => []
  end ++
  match obj_get (properties test) "author" with
  | Some v => [("author", v)]
  | None => []
  end.
Proof.
  unfold extractFromTest, metadataProperties. simpl fold_left.
  destruct (obj_get (properties test) "help") as [h|];
    destruct (obj_get (properties test) "assert") as [a|];
    destruct (obj_get (properties test) "author") as [u|];
    reflexivity.
Qed.

Lemma obj_get_singleton {A} (key : string) (found : option A) (k : string) :
  obj_get match found return list (string * A) with
          | Some v => [(key, v)]
          | None => []
          end k =
  if String.eqb key k then found else None.
Proof.
  destruct found as [v|]; cbn [obj_get].
  - reflexivity.
  - now destruct (String.eqb key k).
Qed.

Lemma extractFromTest_own_keys (test : Test) :
  own_keys (extractFromTest test) =
  filter (hasOwnProperty (properties test)) metadataProperties.
Proof.
  rewrite extractFromTest_cases. unfold metadataProperties, hasOwnProperty.
  simpl filter.
  destruct (obj_get (properties test) "help");
    destruct (obj_get (properties test) "assert");
    destruct (obj_get (properties test) "author"); reflexivity.
Qed.

(** ** Validator *)

Lemma sequence_check_false (cachedValue : value) :
  sequence_check cachedValue = false.
Proof. reflexivity. Qed.

Lemma compare_property_unchecked_eq cachedTestMetadata testMetadata meta :
  compare_property cachedTestMetadata testMetadata meta =
  compare_property_unchecked cachedTestMetadata testMetadata meta.
Proof.
  unfold compare_property, compare_property_unchecked.
  destruct (obj_get cachedTestMetadata meta) as [cv|];
    destruct (obj_get testMetadata meta) as [tv|]; try reflexivity.
Qed.

Lemma compare_elements_shift x a y b index steps :
  compare_elements (VArray (x :: a)) (VArray (y :: b)) (S index) steps =
  compare_elements (VArray a) (VArray b) index steps.
Proof.
  revert index. induction steps as [|steps IH]; intros index; simpl.
  - reflexivity.
  - now rewrite IH.
Qed.

Lemma compare_elements_arrays a b :
  length a = length b ->
  compare_elements (VArray a) (VArray b) 0 (length a) = true <-> a = b.
Proof.
  revert b. induction a as [|x a IH]; intros [|y b] Hlen; simpl in *;
    try discriminate.
  - tauto.
  - rewrite compare_elements_shift.
    destruct (String.eqb_spec x y) as [->|Hne]; simpl.
    + rewrite IH by congruence. split; congruence.
    + split; [discriminate | congruence].
Qed.

Lemma same_sequence_eq a b : same_sequence a b <-> a = b.
Proof.
  split.
  - intros [Hlen Hnth]. revert b Hlen Hnth.
    induction a as [|x a IH]; intros [|y b] Hlen Hnth; simpl in *;
      try discriminate; [reflexivity|].
    f_equal.
    + specialize (Hnth 0 (Nat.lt_0_succ _)). simpl in Hnth. congruence.
    + apply IH; [congruence|]. intros i Hi.
      apply (Hnth (S i)). lia.
  - intros ->. split; [reflexivity | intros; reflexivity].
Qed.

Lemma compare_property_sequences cachedTestMetadata testMetadata meta :
  (forall v, obj_get cachedTestMetadata meta = Some v -> exists e, v = VArray e) ->
  (forall v, obj_get testMetadata meta = Some v -> exists e, v = VArray e) ->
  compare_property cachedTestMetadata testMetadata meta = true <->
  obj_get cachedTestMetadata meta = obj_get testMetadata meta.
Proof.
  intros Hc Ht. unfold compare_property.
  destruct (obj_get cachedTestMetadata meta) as [cv|];
    destruct (obj_get testMetadata meta) as [tv|];
    try (split; [discriminate | congruence]); [|tauto].
  destruct (Hc cv eq_refl) as [a ->]. destruct (Ht tv eq_refl) as [b ->].
  rewrite sequence_check_false. simpl.
  destruct (Nat.eqb_spec (length a) (length b)) as [Hlen|Hlen].
  - rewrite (compare_elements_arrays a b Hlen). split; congruence.
  - split; [discriminate | congruence].
Qed.

Lemma NoDup_keys_get {A} (o : obj A) k v :
  NoDup (own_keys o) -> In (k, v) o -> obj_get o k = Some v.
Proof.
  induction o as [|[k' v'] rest IH]; simpl; [tauto|].
  intros Hnd [Heq|Hin].
  - injection Heq as -> ->. now rewrite String.eqb_refl.
  - inversion Hnd as [|? ? Hnotin Hnd']; subst.
    destruct (String.eqb_spec k' k) as [->|Hne].
    + exfalso. apply Hnotin. apply (in_map fst) in Hin. exact Hin.
    + now apply IH.
Qed.

Lemma entry_matches_delete cached k entry :
  fst entry <> k ->
  entry_matches (obj_delete cached k) entry <-> entry_matches cached entry.
Proof.
  intros Hne. unfold entry_matches. rewrite obj_get_delete.
  destruct (String.eqb_spec k (fst entry)); [congruence | tauto].
Qed.

Lemma validateCache_loop_true metadata cached :
  NoDup (own_keys metadata) ->
  fst (validateCache_loop metadata cached) = true <->
  Forall (entry_matches cached) metadata.
Proof.
  revert cached.
  induction metadata as [|[testName testMetadata] rest IH]; intros cached Hnd.
  - simpl. split; [constructor | reflexivity].
  - inversion Hnd as [|? ? Hnotin Hnd']; subst. cbn [validateCache_loop].
    destruct (obj_get cached testName) as [cachedTestMetadata|] eqn:Hget.
    + destruct (forallb (compare_property cachedTestMetadata testMetadata)
                  metadataProperties) eqn:Hcmp.
      * rewrite (IH _ Hnd'). split.
        -- intros Hall. constructor.
           ++ exists cachedTestMetadata. now split.
           ++ rewrite Forall_forall in *. intros e He.
              apply (entry_matches_delete cached testName e).
              ** intros Heq. apply Hnotin. subst testName.
                 now apply (in_map fst).
              ** now apply Hall.
        -- intros Hall. inversion Hall as [|? ? _ Hrest]; subst.
           rewrite Forall_forall in *. intros e He.
           apply (entry_matches_delete cached testName e).
           ++ intros Heq. apply Hnotin. subst testName. now apply (in_map fst).
           ++ now apply Hrest.
      * cbn [fst]. split; [discriminate|].
        intros Hall. inversion Hall as [|? ? [c' [Hc' Hok]] _]; subst.
        cbn [fst snd] in Hc', Hok. congruence.
    + cbn [fst]. split; [discriminate|].
      intros Hall. inversion Hall as [|? ? [c' [Hc' _]] _]; subst.
      cbn [fst] in Hc'. congruence.
Qed.

Lemma validateCache_loop_visited metadata cached :
  exists visited pending,
    own_keys metadata = visited ++ pending
    /\ snd (validateCache_loop metadata cached) = obj_delete_all cached visited
    /\ (fst (validateCache_loop metadata cached) = true -> pending = []).
Proof.
  revert cached.
  induction metadata as [|[testName testMetadata] rest IH]; intros cached.
  - exists [], []. simpl. auto.
  - cbn [validateCache_loop].
    destruct (obj_get cached testName) as [cachedTestMetadata|] eqn:Hget.
    + destruct (forallb (compare_property cachedTestMetadata testMetadata)
                  metadataProperties).
      * destruct (IH (obj_delete cached testName))
          as [visited [pending [Hkeys [Hsnd Htrue]]]].
        exists (testName :: visited), pending. simpl.
        rewrite Hkeys. auto.
      * exists [testName], (own_keys rest). simpl.
        split; [reflexivity | split; [reflexivity | discriminate]].
    + exists [], (testName :: own_keys rest). simpl.
      split; [reflexivity | split; [reflexivity | discriminate]].
Qed.

Lemma validateCache_fst metadata cached :
  fst (validateCache metadata cached) =
  fst (validateCache_loop metadata cached)
  && is_empty (snd (validateCache_loop metadata cached)).
Proof.
  unfold validateCache, is_empty.
  destruct (validateCache_loop metadata cached) as [[|] cached']; simpl.
  - now destruct (own_keys cached').
  - reflexivity.
Qed.

Lemma validateCache_snd metadata cached :
  snd (validateCache metadata cached) =
  snd (validateCache_loop metadata cached).
Proof.
  unfold validateCache.
  destruct (validateCache_loop metadata cached) as [[|] cached']; simpl.
  - now destruct (own_keys cached').
  - reflexivity.
Qed.

Lemma is_empty_nil {A} (o : obj A) : is_empty o = true <-> o = [].
Proof.
  unfold is_empty. destruct o; simpl; split; congruence.
Qed.

Lemma element_loose_neq_false a b : element_loose_neq a b = false <-> a = b.
Proof.
  destruct a as [x|], b as [y|]; simpl; try (split; congruence).
  destruct (String.eqb_spec x y); simpl; split; congruence.
Qed.

Lemma length_loose_eq_true a b : length_loose_eq a b = true <-> a = b.
Proof.
  destruct a as [x|], b as [y|]; simpl; try (split; congruence).
  rewrite Nat.eqb_eq. split; congruence.
Qed.

Lemma compare_elements_true cachedValue testValue index steps :
  compare_elements cachedValue testValue index steps = true <->
  (forall i, index <= i < index + steps ->
             js_index cachedValue i = js_index testValue i).
Proof.
  revert index. induction steps as [|steps IH]; intros index; simpl.
  - split; [intros _ i Hi; lia | reflexivity].
  - destruct (element_loose_neq (js_index cachedValue index)
                (js_index testValue index)) eqn:Hneq.
    + split; [discriminate|]. intros H.
      assert (Heq : js_index cachedValue index = js_index testValue index)
        by (apply H; lia).
      apply element_loose_neq_false in Heq. congruence.
    + apply element_loose_neq_false in Hneq. rewrite IH. split.
      * intros H i Hi. destruct (Nat.eq_dec i index) as [->|Hne];
          [exact Hneq | apply H; lia].
      * intros H i Hi. apply H. lia.
Qed.

(** What the comparison of one property decides, whatever the values are:
    the key is on both sides or on neither, and on both sides the values have
    the same [length] and the same element at every index below it.  A
    string and the sequence of its characters pass, and so do two
    booleans. *)
Lemma compare_property_true cachedTestMetadata testMetadata meta :
  compare_property cachedTestMetadata testMetadata meta = true <->
  match obj_get cachedTestMetadata meta, obj_get testMetadata meta with
  | Some cachedValue, Some testValue =>
      js_length cachedValue = js_length testValue
      /\ forall i, i < iterations (js_length cachedValue) ->
                   js_index cachedValue i = js_index testValue i
  | None, None => True
  | _, _ => False
  end.
Proof.
  unfold compare_property.
  destruct (obj_get cachedTestMetadata meta) as [cv|];
    destruct (obj_get testMetadata meta) as [tv|];
    try (split; [discriminate | tauto]); [|tauto].
  rewrite sequence_check_false.
  destruct (length_loose_eq (js_length cv) (js_length tv)) eqn:Hlen.
  - apply length_loose_eq_true in Hlen. rewrite compare_elements_true.
    split.
    + intros H. split; [exact Hlen|]. intros i Hi. apply H. lia.
    + intros [_ H] i Hi. apply H. lia.
  - split; [discriminate|]. intros [Heq _].
    apply length_loose_eq_true in Heq. congruence.
Qed.

(** C6.  The condition of the sequence-type check of [validateCache],
    [! cachedTestMetadata[meta] instanceof Array], is false for every cached
    value, sequence or not: its [return false] is never taken, the comparison
    of a property is the same function with the check taken out, and a cached
    value that is no sequence (here the string a against the extracted
    sequence of the one string a) is not rejected. *)
Theorem sequence_check_is_a_no_op :
  (forall cachedValue, sequence_check cachedValue = false)
  /\ (forall cachedTestMetadata testMetadata meta,
         compare_property cachedTestMetadata testMetadata meta =
         compare_property_unchecked cachedTestMetadata testMetadata meta)
  /\ instanceof_Array (VString "a") = false
  /\ validateCache [("t", [("help", VArray ["a"])])]
                   [("t", [("help", VString "a")])] = (true, []).
Proof.
  split; [exact sequence_check_false|].
  split; [exact compare_property_unchecked_eq|].
  split; reflexivity.
Qed.

Lemma forall_entries_get (metadata cached : obj (obj value)) :
  NoDup (own_keys metadata) ->
  Forall (entry_matches cached) metadata <->
  (forall testName testMetadata,
      obj_get metadata testName = Some testMetadata ->
      entry_matches cached (testName, testMetadata)).
Proof.
  intros Hnd. rewrite Forall_forall. split.
  - intros H testName testMetadata Hget. apply H. now apply obj_get_In.
  - intros H [testName testMetadata] Hin. apply H.
    now apply NoDup_keys_get.
Qed.

(** With sequences of strings on both sides, the result of [validateCache]
    is the agreement of the two mappings under the recognized keys. *)
Lemma validateCache_true_iff_restricted_deep_equal
  (metadata cached : obj (obj value)) :
  NoDup (own_keys metadata) ->
  sequence_valued metadata ->
  sequence_valued cached ->
  fst (validateCache metadata cached) = true <->
  restricted_deep_equal metadata cached.
Proof.
  intros Hnd Hseqm Hseqc.
  rewrite validateCache_fst, andb_true_iff, (validateCache_loop_true _ _ Hnd),
    (forall_entries_get _ _ Hnd), is_empty_nil.
  assert (Hsnd : (snd (validateCache_loop metadata cached) = [] <->
                  obj_delete_all cached (own_keys metadata) = [])
                 \/ ~ (forall testName testMetadata,
                          obj_get metadata testName = Some testMetadata ->
                          entry_matches cached (testName, testMetadata))).
  { destruct (validateCache_loop_visited metadata cached)
      as [visited [pending [Hkeys [Hsnd Htrue]]]].
    destruct (fst (validateCache_loop metadata cached)) eqn:Hfst.
    - left. rewrite Hsnd, Hkeys, (Htrue eq_refl), app_nil_r. tauto.
    - right. intros Hall.
      apply (forall_entries_get _ _ Hnd), (validateCache_loop_true _ _ Hnd) in Hall.
      congruence. }
  assert (Hcmp : forall testName testMetadata cachedTestMetadata,
             obj_get metadata testName = Some testMetadata ->
             obj_get cached testName = Some cachedTestMetadata ->
             forallb (compare_property cachedTestMetadata testMetadata)
               metadataProperties = true <->
             (forall meta, In meta metadataProperties ->
                           obj_get cachedTestMetadata meta =
                           obj_get testMetadata meta)).
  { intros testName testMetadata cachedTestMetadata Hm Hc.
    rewrite forallb_forall. split; intros H meta Hin.
    - apply compare_property_sequences; eauto.
    - apply compare_property_sequences; eauto. }
  unfold restricted_deep_equal. split.
  - intros [Hall Hempty].
    destruct Hsnd as [Hiff|Hno]; [|contradiction].
    apply Hiff in Hempty.
    pose proof (proj1 (obj_delete_all_empty _ _) Hempty) as Hleft.
    split; [|split].
    + intros testName Hhas. apply hasOwnProperty_get in Hhas as [tm Htm].
      destruct (Hall _ _ Htm) as [cm [Hcm _]]. simpl in Hcm.
      apply hasOwnProperty_get. eauto.
    + intros testName tm cm meta Htm Hcm Hin.
      destruct (Hall _ _ Htm) as [cm' [Hcm' Hok]]. simpl in Hcm', Hok.
      assert (cm' = cm) by congruence. subst cm'.
      apply (Hcmp _ _ _ Htm Hcm) with (meta := meta) in Hok; [|exact Hin].
      split.
      * unfold hasOwnProperty. now rewrite Hok.
      * intros a b Ha Hb. apply same_sequence_eq. congruence.
    + intros testName Hhas. apply own_keys_get. apply Hleft.
      now apply own_keys_get.
  - intros [Hsub [Heq Hsup]].
    assert (Hall : forall testName testMetadata,
               obj_get metadata testName = Some testMetadata ->
               entry_matches cached (testName, testMetadata)).
    { intros testName tm Htm.
      assert (Hhas : hasOwnProperty cached testName = true).
      { apply Hsub, hasOwnProperty_get. eauto. }
      apply hasOwnProperty_get in Hhas as [cm Hcm].
      exists cm. split; [exact Hcm|]. simpl.
      apply (Hcmp _ _ _ Htm Hcm). intros meta Hin.
      destruct (Heq _ _ _ _ Htm Hcm Hin) as [Hpres Hsame].
      unfold hasOwnProperty in Hpres.
      destruct (obj_get cm meta) as [cv|] eqn:Hcv;
        destruct (obj_get tm meta) as [tv|] eqn:Htv;
        try discriminate; [|reflexivity].
      destruct (Hseqc _ _ _ _ Hcm Hin Hcv) as [b ->].
      destruct (Hseqm _ _ _ _ Htm Hin Htv) as [a ->].
      f_equal. f_equal. symmetry. apply same_sequence_eq. now apply Hsame. }
    split; [exact Hall|].
    destruct Hsnd as [Hiff|Hno]; [|contradiction].
    apply Hiff. apply (proj2 (obj_delete_all_empty _ _)).
    intros k Hk. apply own_keys_get, Hsup. now apply own_keys_get.
Qed.

Lemma sequence_valuedb_sound (m : obj (obj value)) :
  sequence_valuedb m = true -> sequence_valued m.
Proof.
  unfold sequence_valuedb, sequence_valued.
  intros Hall testName testMetadata meta v Hget Hmeta Hv.
  rewrite forallb_forall in Hall.
  specialize (Hall _ (obj_get_In _ _ _ Hget)). cbn [snd] in Hall.
  rewrite forallb_forall in Hall. specialize (Hall _ Hmeta).
  rewrite Hv in Hall. destruct v; try discriminate. eauto.
Qed.

(** ** Presenter *)

Lemma insertBefore_inserted doc newChild id :
  existsb (has_id id) doc = true ->
  inserted doc (insertBefore doc newChild id) newChild.
Proof.
  induction doc as [|n rest IH]; simpl; [discriminate|].
  destruct (has_id id n) eqn:Hid; simpl.
  - intros _. exists [], (n :: rest). split; reflexivity.
  - intros Hex. destruct (IH Hex) as [l1 [l2 [H1 H2]]].
    exists (n :: l1), l2. simpl. split; congruence.
Qed.

Lemma insert_message_inserted doc messageElement :
  inserted doc (insert_message doc messageElement) messageElement.
Proof.
  unfold insert_message, getElementById.
  destruct (find (has_id "summary") doc) as [summary|] eqn:Hfind.
  - apply insertBefore_inserted. apply existsb_exists.
    apply find_some in Hfind. exists summary. exact Hfind.
  - exists doc, []. now rewrite app_nil_r.
Qed.

Lemma issue_element_eq message messageClass :
  issue_element message messageClass =
  Element "p" [("id", "metadata_issue"); ("class", messageClass)]
    [Text message; link_element].
Proof. reflexivity. Qed.

Lemma error_element_eq message :
  error_element message = Element "p" [("class", "error")] [Text message].
Proof. reflexivity. Qed.

Lemma process_loop_cached_metadata tests p :
  cached_metadata (process_loop tests p) = cached_metadata p.
Proof.
  revert p. induction tests as [|test rest IH]; intros p; simpl.
  - reflexivity.
  - rewrite IH. now destruct (metadata_truthy (metadata p) (name test)).
Qed.

Lemma process_loop_inherited_name test p :
  inherited (name test) = true ->
  process_loop [test] p = error ("Duplicate test name: " +++ name test) p.
Proof.
  intros Hin. simpl. unfold metadata_truthy. rewrite Hin.
  now destruct (obj_get (metadata p) (name test)).
Qed.

(** C4, at a name of [Object.prototype].  With two tests named constructor
    and a fresh generator, [process] puts in two messages Duplicate test
    name: constructor, one of them for the first occurrence, and keeps no
    metadata under the name. *)
Theorem duplicate_check_on_prototype_name :
  let p := process_loop [t_constructor; t_constructor] (initial_page None []) in
  document p =
    [ Element "p" [("class", "error")] [Text "Duplicate test name: constructor"];
      Element "p" [("class", "error")] [Text "Duplicate test name: constructor"] ]
  /\ obj_get (metadata p) "constructor" = None
  /\ extractFromTest t_constructor = [("help", VArray ["h"])].
Proof. repeat split. Qed.




Lemma metadata_truthy_own metadata testName :
  inherited testName = false ->
  metadata_truthy metadata testName = hasOwnProperty metadata testName.
Proof.
  unfold metadata_truthy, hasOwnProperty. intros ->.
  now destruct (obj_get metadata testName).
Qed.



Lemma own_keys_replace {A} (o : obj A) k v :
  own_keys (obj_replace o k v) = own_keys o.
Proof.
  induction o as [|[k' v'] rest IH]; simpl; [reflexivity|].
  destruct (String.eqb k' k); simpl; [reflexivity | now rewrite IH].
Qed.

Lemma In_own_keys_insert_index {A} n (o : obj A) k v k' :
  In k' (own_keys (insert_index n k v o)) <-> k' = k \/ In k' (own_keys o).
Proof.
  induction o as [|[k0 v0] rest IH]; simpl.
  - intuition congruence.
  - destruct (array_index k0) as [n0|]; [destruct (n0 <? n)%N|]; simpl;
      rewrite ?IH; intuition congruence.
Qed.

Lemma NoDup_insert_index {A} n (o : obj A) k v :
  ~ In k (own_keys o) ->
  NoDup (own_keys o) ->
  NoDup (own_keys (insert_index n k v o)).
Proof.
  induction o as [|[k0 v0] rest IH]; simpl; intros Hnotin Hnd.
  - constructor; [tauto | constructor].
  - inversion Hnd as [|? ? Hk0 Hrest]; subst.
    destruct (array_index k0) as [n0|]; [destruct (n0 <? n)%N|]; simpl;
      try (constructor; [simpl; tauto | exact Hnd]).
    constructor.
    + rewrite In_own_keys_insert_index. intuition congruence.
    + apply IH; tauto.
Qed.

(** Setting a property keeps the names of an object distinct. *)
Lemma NoDup_obj_set {A} (o : obj A) k v :
  NoDup (own_keys o) -> NoDup (own_keys (obj_set o k v)).
Proof.
  intros Hnd. unfold obj_set.
  destruct (hasOwnProperty o k) eqn:Hhas.
  - now rewrite own_keys_replace.
  - assert (Hnotin : ~ In k (own_keys o)).
    { intros Hin. apply own_keys_get in Hin. congruence. }
    destruct (array_index k) as [n|].
    + now apply NoDup_insert_index.
    + unfold own_keys. rewrite map_app. simpl.
      apply NoDup_app; [exact Hnd | constructor; [tauto | constructor] |].
      intros x Hx [<-|[]]. exact (Hnotin Hx).
Qed.

(** The names of the extracted mapping stay distinct through a run. *)
Lemma process_loop_NoDup tests p :
  NoDup (own_keys (metadata p)) ->
  NoDup (own_keys (metadata (process_loop tests p))).
Proof.
  revert p. induction tests as [|test rest IH]; intros p Hnd; simpl.
  - exact Hnd.
  - apply IH. destruct (metadata_truthy (metadata p) (name test)).
    + exact Hnd.
    + cbn [set_metadata metadata]. now apply NoDup_obj_set.
Qed.

Lemma report_metadata p : metadata (report p) = metadata p.
Proof.
  unfold report.
  destruct (cached_metadata p) as [cached|]; [|reflexivity].
  now destruct (validateCache (metadata p) cached) as [[|] cached'].
Qed.

Lemma process_loop_keeps_entries tests p testName testMetadata :
  obj_get (metadata p) testName = Some testMetadata ->
  obj_get (metadata (process_loop tests p)) testName = Some testMetadata.
Proof.
  revert p. induction tests as [|test rest IH]; intros p Hget; simpl.
  - exact Hget.
  - apply IH. unfold metadata_truthy.
    destruct (obj_get (metadata p) (name test)) eqn:Hn; [exact Hget|].
    destruct (inherited (name test)); [exact Hget|].
    cbn [set_metadata metadata]. rewrite obj_get_set.
    destruct (String.eqb_spec (name test) testName); [congruence | exact Hget].
Qed.

Lemma process_loop_keeps_truthy tests p testName :
  metadata_truthy (metadata p) testName = true ->
  metadata_truthy (metadata (process_loop tests p)) testName = true.
Proof.
  unfold metadata_truthy. intros H.
  destruct (obj_get (metadata p) testName) as [tm|] eqn:Hget.
  - now rewrite (process_loop_keeps_entries tests p _ _ Hget).
  - rewrite H.
    now destruct (obj_get (metadata (process_loop tests p)) testName).
Qed.

Lemma process_loop_names_truthy tests p test :
  In test tests ->
  metadata_truthy (metadata (process_loop tests p)) (name test) = true.
Proof.
  revert p. induction tests as [|t rest IH]; intros p; simpl; [tauto|].
  intros [->|Hin]; [|now apply IH].
  apply process_loop_keeps_truthy.
  destruct (metadata_truthy (metadata p) (name test)) eqn:Ht; [exact Ht|].
  cbn [set_metadata metadata]. unfold metadata_truthy.
  now rewrite obj_get_set, String.eqb_refl.
Qed.

Lemma process_loop_all_seen tests p :
  (forall test, In test tests ->
                metadata_truthy (metadata p) (name test) = true) ->
  process_loop tests p =
  set_document p (report_duplicates (document p) tests).
Proof.
  revert p. induction tests as [|test rest IH]; intros p Hall.
  - now destruct p.
  - cbn [process_loop]. rewrite (Hall test) by now left.
    rewrite IH by (intros t Ht; apply Hall; now right).
    reflexivity.
Qed.

(** C9, as the claim has it, fails: after a first run on the test t1 the
    extracted mapping is still there, and a second run on t1 does not do
    what it does from an empty mapping. *)
Lemma metadata_is_not_reset_between_invocations :
  let p1 := process [t1] (initial_page None []) in
  metadata p1 <> []
  /\ metadata p1 = [("t1", [("help", VArray ["h1"])])]
  /\ document (process [t1] p1) <> document (process [t1] (set_metadata p1 []))
  /\ In (Element "p" [("class", "error")] [Text "Duplicate test name: t1"])
        (document (process [t1] p1)).
Proof.
  cbv zeta. split; [discriminate|]. split; [reflexivity|].
  split; [discriminate|]. vm_compute. tauto.
Qed.

(** ** Renderer *)

Lemma append_assoc (a b c : string) : (a +++ b) +++ c = a +++ b +++ c.
Proof. induction a as [|x a IH]; simpl; [reflexivity | now rewrite IH]. Qed.

Lemma append_nil_r (a : string) : a +++ EmptyString = a.
Proof. induction a as [|x a IH]; simpl; [reflexivity | now rewrite IH]. Qed.

Lemma length_append (a b : string) :
  String.length (a +++ b) = String.length a + String.length b.
Proof. induction a as [|x a IH]; simpl; [reflexivity | now rewrite IH]. Qed.

Lemma contains_newline_append (a b : string) :
  contains_newline (a +++ b) = contains_newline a || contains_newline b.
Proof.
  induction a as [|x a IH]; simpl; [reflexivity|].
  rewrite IH. now destruct (Ascii.eqb x newline).
Qed.

Lemma escape_char_no_newline (c : ascii) :
  contains_newline (escape_char c) = false.
Proof.
  destruct c as [[] [] [] [] [] [] [] []]; reflexivity.
Qed.

Lemma JSON_stringify_string_no_newline (s : string) :
  contains_newline (JSON_stringify_string s) = false.
Proof.
  unfold JSON_stringify_string. rewrite !contains_newline_append.
  assert (H : contains_newline (escape_string s) = false).
  { induction s as [|c s IH]; simpl; [reflexivity|].
    now rewrite contains_newline_append, escape_char_no_newline, IH. }
  rewrite H. reflexivity.
Qed.

Lemma jsonifyArray_loop_continued elems index indent output :
  jsonifyArray_loop elems (S index) indent output =
  output +++ continued indent elems.
Proof.
  revert index output.
  induction elems as [|e rest IH]; intros index output;
    cbn [jsonifyArray_loop continued Nat.ltb Nat.leb].
  - now rewrite append_nil_r.
  - rewrite IH. fold (continuation indent).
    now rewrite !append_assoc.
Qed.

Lemma concat_continued indent e rest :
  String.concat (continuation indent) (map JSON_stringify_string (e :: rest)) =
  JSON_stringify_string e +++ continued indent rest.
Proof.
  revert e. induction rest as [|e' rest IH]; intros e.
  - simpl. now rewrite append_nil_r.
  - change (String.concat (continuation indent)
              (map JSON_stringify_string (e :: e' :: rest)))
      with (JSON_stringify_string e +++ continuation indent +++
            String.concat (continuation indent)
              (map JSON_stringify_string (e' :: rest))).
    rewrite IH. reflexivity.
Qed.

Lemma jsonifyArray_concat arrayValue indent :
  jsonifyArray arrayValue indent =
  "[" +++ String.concat (continuation indent)
            (map JSON_stringify_string arrayValue) +++ "]".
Proof.
  destruct arrayValue as [|e rest]; [reflexivity|].
  rewrite concat_continued. unfold jsonifyArray.
  destruct rest as [|e' rest].
  - simpl continued. now rewrite append_nil_r.
  - cbn [jsonifyArray_loop Nat.ltb Nat.leb].
    rewrite jsonifyArray_loop_continued.
    cbn [continued]. unfold continuation.
    now rewrite !append_assoc.
Qed.

Lemma length_spaces n : String.length (spaces n) = n.
Proof. induction n as [|n IH]; simpl; [reflexivity | now rewrite IH]. Qed.

Lemma jsonifyValue_recognized property arrayValue indent :
  In property metadataProperties ->
  jsonifyValue property (JValue (VArray arrayValue)) indent =
  jsonifyArray arrayValue (indent +++ spaces (5 + String.length property))
  /\ String.length ("  " +++ indent +++ spaces (5 + String.length property)) =
     String.length ("  " +++ indent +++ dq +++ property +++ dq +++ ": " +++ "[").
Proof.
  intros Hin. split.
  - simpl in Hin. destruct Hin as [<-|[<-|[<-|[]]]]; reflexivity.
  - rewrite !length_append, length_spaces. simpl. lia.
Qed.

(** C8.  The renderer lays a sequence out by its length.  The sequence of
    the one string x is rendered as the text made of an opening bracket, x
    between double quotes and a closing bracket; the rendering of a sequence
    of one element has no line break in it.  The sequence of x and y is
    rendered with x, quoted, after the opening bracket, then a comma and a
    line break, then y, quoted, behind two spaces and the indent.  Every
    sequence is rendered with its elements, none of which has a line break in
    it, separated by a comma, a line break, two spaces and the indent: one
    element on each line.  Under each of the keys help, assert and author the
    indent that [jsonifyObject] hands over makes the text before an element
    of a continuation line as long as the text that stands on the opening line
    before the first element, from the margin through the key to the opening
    bracket: the elements stand in one column.  The last part shows it for
    the sequence of a1 and a2 under assert. *)
Theorem jsonifyArray_layout :
  (forall indent,
      jsonifyArray ["x"] indent = "[" +++ dq +++ "x" +++ dq +++ "]")
  /\ (forall e indent,
         jsonifyArray [e] indent = "[" +++ JSON_stringify_string e +++ "]"
         /\ contains_newline (jsonifyArray [e] indent) = false)
  /\ (forall indent,
         jsonifyArray ["x"; "y"] indent =
         "[" +++ dq +++ "x" +++ dq +++ "," +++ nl +++ "  " +++ indent +++
         dq +++ "y" +++ dq +++ "]")
  /\ (forall arrayValue indent,
         jsonifyArray arrayValue indent =
         "[" +++ String.concat ("," +++ nl +++ "  " +++ indent)
                   (map JSON_stringify_string arrayValue) +++ "]")
  /\ (forall e, contains_newline (JSON_stringify_string e) = false)
  /\ Forall
       (fun property =>
          forall arrayValue indent,
            jsonifyValue property (JValue (VArray arrayValue)) indent =
            jsonifyArray arrayValue
              (indent +++ spaces (5 + String.length property))
            /\ String.length
                 ("  " +++ indent +++ spaces (5 + String.length property)) =
               String.length
                 ("  " +++ indent +++ dq +++ property +++ dq +++ ": " +++ "["))
       metadataProperties
  /\ jsonifyObject [("assert", JValue (VArray ["a1"; "a2"]))] "  " =
     "{" +++ nl +++
     "    " +++ dq +++ "assert" +++ dq +++ ": [" +++ dq +++ "a1" +++ dq +++ "," +++ nl +++
     "               " +++ dq +++ "a2" +++ dq +++ "]" +++ nl +++
     "  }".
Proof.
  split; [reflexivity|].
  split.
  { intros e indent. split; [reflexivity|].
    change (jsonifyArray [e] indent)
      with ("[" +++ JSON_stringify_string e +++ "]").
    rewrite !contains_newline_append, JSON_stringify_string_no_newline.
    reflexivity. }
  split.
  { intros indent. rewrite jsonifyArray_concat. cbn [map String.concat].
    replace (JSON_stringify_string "x") with (dq +++ "x" +++ dq) by reflexivity.
    replace (JSON_stringify_string "y") with (dq +++ "y" +++ dq) by reflexivity.
    unfold continuation. now rewrite !append_assoc. }
  split; [exact jsonifyArray_concat|].
  split; [exact JSON_stringify_string_no_newline|].
  split; [|reflexivity].
  apply Forall_forall. intros property Hin arrayValue indent.
  now apply jsonifyValue_recognized.
Qed.

(** ** Reading back what the renderer wrote *)

(** Decides the tests on characters that are known. *)
Ltac char_tests :=
  repeat match goal with
    | |- context [Ascii.eqb ?a ?b] =>
        let r := eval vm_compute in (Ascii.eqb a b) in
        match r with
        | true => change (Ascii.eqb a b) with true
        | false => change (Ascii.eqb a b) with false
        end
    | |- context [is_white_space ?a] =>
        let r := eval vm_compute in (is_white_space a) in
        match r with
        | true => change (is_white_space a) with true
        | false => change (is_white_space a) with false
        end
    end;
  cbn [orb andb negb]; cbv iota.

(** Brings a text to the form of a first character and the rest. *)
Ltac norm := rewrite ?append_assoc; cbn [String.append nl dq str].

Lemma skip_white_space_spaces n s :
  skip_white_space (spaces n +++ s) = skip_white_space s.
Proof. induction n as [|n IH]; [reflexivity | exact IH]. Qed.

Ltac skip :=
  repeat first
    [ rewrite skip_white_space_spaces
    | progress (cbn [skip_white_space]; char_tests) ].

Lemma read_string_escape_char c tail :
  read_string (escape_char c +++ tail) = with_first c (read_string tail).
Proof.
  destruct c as [[] [] [] [] [] [] [] []]; reflexivity.
Qed.

Lemma read_string_escape_string x rest :
  read_string (escape_string x +++ String dquote rest) = Some (x, rest).
Proof.
  induction x as [|c x IH]; cbn [escape_string].
  - reflexivity.
  - now rewrite append_assoc, read_string_escape_char, IH.
Qed.

Lemma JSON_stringify_string_cons x rest :
  JSON_stringify_string x +++ rest =
  String dquote (escape_string x +++ String dquote rest).
Proof. unfold JSON_stringify_string. now norm. Qed.

Lemma spaces_add a b : spaces a +++ spaces b = spaces (a + b).
Proof. induction a as [|a IH]; simpl; [reflexivity | now rewrite IH]. Qed.

Lemma substring_spaces k j : substring 0 k (spaces j) = spaces (Nat.min k j).
Proof.
  revert k. induction j as [|j IH]; intros [|k]; simpl; try reflexivity.
  now rewrite IH.
Qed.

Lemma length_continued indent elems :
  length elems <= String.length (continued indent elems).
Proof.
  induction elems as [|e rest IH]; cbn [continued length]; [lia|].
  unfold continuation. rewrite !length_append. simpl. lia.
Qed.

Lemma read_elements_continued elems :
  forall e n rest fuel,
    length elems < fuel ->
    read_elements fuel
      (JSON_stringify_string e +++ continued (spaces n) elems +++ "]" +++ rest) =
    Some (e :: elems, rest).
Proof.
  induction elems as [|e' elems IH]; intros e n rest fuel Hfuel;
    (destruct fuel as [|fuel]; [inversion Hfuel|]);
    rewrite JSON_stringify_string_cons; cbn [read_elements]; char_tests;
    rewrite read_string_escape_string; cbn [continued];
    unfold continuation; norm; skip.
  - reflexivity.
  - rewrite JSON_stringify_string_cons. skip.
    rewrite <- JSON_stringify_string_cons.
    change (String "]" rest) with ("]" +++ rest).
    rewrite IH by (simpl in Hfuel; lia).
    reflexivity.
Qed.

Lemma read_value_jsonifyArray elems n rest :
  read_value (jsonifyArray elems (spaces n) +++ rest) =
  Some (VArray elems, rest).
Proof.
  rewrite jsonifyArray_concat. destruct elems as [|e elems].
  - reflexivity.
  - rewrite concat_continued. norm. cbn [read_value]. char_tests.
    unfold read_array. rewrite JSON_stringify_string_cons. skip.
    rewrite <- JSON_stringify_string_cons.
    change (String "]" rest) with ("]" +++ rest).
    rewrite read_elements_continued; [reflexivity|].
    rewrite !length_append. cbn [String.length].
    pose proof (length_continued (spaces n) elems). lia.
Qed.

Lemma read_value_jsonifyValue property v n rest :
  read_value (jsonifyValue property (JValue v) (spaces n) +++ rest) =
  Some (v, rest).
Proof.
  destruct v as [[|]|s|elems]; cbn [jsonifyValue JSON_stringify].
  - reflexivity.
  - reflexivity.
  - rewrite JSON_stringify_string_cons. cbn [read_value]. char_tests.
    now rewrite read_string_escape_string.
  - change sixteen_spaces with (spaces 16).
    rewrite substring_spaces, spaces_add.
    apply read_value_jsonifyArray.
Qed.

Lemma skip_white_space_jsonifyValue property v indent rest :
  skip_white_space (jsonifyValue property (JValue v) indent +++ rest) =
  jsonifyValue property (JValue v) indent +++ rest.
Proof.
  destruct v as [[|]|s|elems]; cbn [jsonifyValue JSON_stringify].
  - reflexivity.
  - reflexivity.
  - rewrite JSON_stringify_string_cons. reflexivity.
  - rewrite jsonifyArray_concat. reflexivity.
Qed.

Lemma jsonifyObject_loop_text jv props indent first output :
  jsonifyObject_loop jv props indent first output =
  output +++ properties_text jv props indent first.
Proof.
  revert first output.
  induction props as [|[property value] rest IH]; intros first output;
    cbn [jsonifyObject_loop properties_text].
  - now rewrite append_nil_r.
  - rewrite IH. destruct first; cbn [negb]; now rewrite !append_assoc.
Qed.

Lemma jsonifyObject_with_text jv props indent :
  jsonifyObject_with jv props indent =
  match props with
  | [] => "{}"
  | _ :: _ => "{" +++ properties_text jv props indent true +++ nl +++ indent +++ "}"
  end.
Proof.
  unfold jsonifyObject_with. rewrite jsonifyObject_loop_text.
  destruct props as [|[property value] rest]; [reflexivity|].
  cbn [properties_text]. rewrite !length_append.
  cbn [String.length nl str Nat.add Nat.ltb Nat.leb].
  now rewrite !append_assoc.
Qed.

Lemma length_properties_text jv props indent first :
  length props <= String.length (properties_text jv props indent first).
Proof.
  revert first. induction props as [|[property value] rest IH]; intros first;
    cbn [properties_text length]; [lia|].
  rewrite !length_append. specialize (IH false). simpl. lia.
Qed.

Section ReadObjectBack.

Context {A : Type}.
Variable read_property_value : string -> option (A * string).
Variable jv : string -> json -> string -> string.
Variable inj : A -> json.
Variable n : nat.

Lemma read_properties_text entries :
  forall property a tail fuel,
    reads_back read_property_value jv inj n ((property, a) :: entries) ->
    Forall safe_name (property :: own_keys entries) ->
    length entries < fuel ->
    read_properties read_property_value fuel
      (dq +++ property +++ dq +++ ": " +++ jv property (inj a) (spaces n) +++
       properties_text jv (rendered inj entries) (spaces n) false +++
       nl +++ spaces n +++ "}" +++ tail) =
    Some ((property, a) :: entries, tail).
Proof.
  induction entries as [|[property' a'] entries IH];
    intros property a tail fuel Hback Hsafe Hfuel;
    (destruct fuel as [|fuel]; [inversion Hfuel|]);
    norm; cbn [read_properties]; char_tests;
    pose proof (Forall_inv Hsafe) as Hp; unfold safe_name in Hp;
    rewrite <- Hp at 1;
    rewrite read_string_escape_string; skip;
    match goal with
    | |- context [read_property_value
                    (skip_white_space (jv property (inj a) (spaces n) +++ ?r))] =>
        destruct (Hback property a r (or_introl eq_refl)) as [Hskip Hread]
    end;
    rewrite Hskip, Hread;
    cbn [rendered map properties_text fst snd]; norm; skip.
  - reflexivity.
  - fold (rendered inj entries).
    match goal with
    | |- context [read_properties _ fuel ?text] =>
        replace text
          with (dq +++ property' +++ dq +++ ": " +++
                jv property' (inj a') (spaces n) +++
                properties_text jv (rendered inj entries) (spaces n) false +++
                nl +++ spaces n +++ "}" +++ tail)
          by now norm
    end.
    rewrite IH; [reflexivity| | |simpl in Hfuel; lia].
    + intros p b rest Hin. apply Hback. now right.
    + now inversion Hsafe.
Qed.

Lemma read_object_jsonifyObject entries tail :
  reads_back read_property_value jv inj n entries ->
  Forall safe_name (own_keys entries) ->
  read_object read_property_value
    (jsonifyObject_with jv (rendered inj entries) (spaces n) +++ tail) =
  Some (entries, tail).
Proof.
  intros Hback Hsafe. rewrite jsonifyObject_with_text.
  destruct entries as [|[property a] entries]; [reflexivity|].
  cbn [rendered map fst snd properties_text]. fold (rendered inj entries).
  norm. cbn [read_object]. char_tests. skip.
  match goal with
  | |- read_properties _ ?fuel ?text = _ =>
      replace text
        with (dq +++ property +++ dq +++ ": " +++
              jv property (inj a) (spaces n) +++
              properties_text jv (rendered inj entries) (spaces n) false +++
              nl +++ spaces n +++ "}" +++ tail)
        by now norm
  end.
  apply read_properties_text; [exact Hback | exact Hsafe |].
  cbn [String.length]. rewrite !length_append.
  pose proof (length_properties_text jv (rendered inj entries) (spaces n) false).
  unfold rendered in *. rewrite length_map in H. lia.
Qed.

End ReadObjectBack.

Lemma strip_prefix_append pre s : strip_prefix pre (pre +++ s) = Some s.
Proof.
  induction pre as [|c pre IH]; simpl; [reflexivity|].
  now rewrite Ascii.eqb_refl.
Qed.

Lemma read_testMetadata n property testMetadata rest :
  Forall safe_name (own_keys testMetadata) ->
  read_object read_value
    (jsonifyValue property (json_of_testMetadata testMetadata) (spaces n) +++ rest) =
  Some (testMetadata, rest).
Proof.
  intros Hsafe. cbn [jsonifyValue json_of_testMetadata].
  change (spaces n +++ "  ") with (spaces n +++ spaces 2).
  rewrite spaces_add.
  apply (read_object_jsonifyObject read_value jsonifyValue JValue);
    [|exact Hsafe].
  intros p v r _. split.
  - apply skip_white_space_jsonifyValue.
  - apply read_value_jsonifyValue.
Qed.

Lemma read_metadata_jsonifyObject m rest :
  safe_metadata m ->
  read_metadata (jsonifyObject (json_of_metadata m) EmptyString +++ rest) =
  Some (m, rest).
Proof.
  intros Hsafe. unfold read_metadata, jsonifyObject.
  apply (read_object_jsonifyObject (read_object read_value) jsonifyValue
           json_of_testMetadata 0).
  - intros property testMetadata r Hin.
    unfold safe_metadata in Hsafe. rewrite Forall_forall in Hsafe.
    destruct (Hsafe _ Hin) as [_ Hkeys]. cbn [snd] in Hkeys.
    split; [|now apply read_testMetadata].
    cbn [jsonifyValue json_of_testMetadata].
    rewrite jsonifyObject_with_text.
    now destruct testMetadata.
  - unfold safe_metadata in Hsafe. unfold own_keys.
    apply Forall_map. eapply Forall_impl; [|exact Hsafe].
    intros e [H _]. exact H.
Qed.

(** *** Text without a less-than sign *)

Lemma no_markup_append a b :
  no_markup (a +++ b) = no_markup a && no_markup b.
Proof.
  induction a as [|c a IH]; simpl; [reflexivity|].
  now rewrite IH, andb_assoc.
Qed.

Lemma no_markup_spaces n : no_markup (spaces n) = true.
Proof. induction n as [|n IH]; simpl; [reflexivity | exact IH]. Qed.

Lemma no_markup_substring s : forall n m,
  no_markup s = true -> no_markup (substring n m s) = true.
Proof.
  induction s as [|c s IH]; intros n m H.
  - now destruct n, m.
  - simpl in H. apply andb_true_iff in H as [Hc Hs].
    destruct n as [|n]; [destruct m as [|m]|]; simpl; [reflexivity| |].
    + rewrite Hc. now apply IH.
    + now apply IH.
Qed.

Lemma hex_digit_no_markup n : Ascii.eqb (hex_digit n) "<" = false.
Proof.
  unfold hex_digit.
  do 16 (destruct n as [|n]; [reflexivity|]).
  now destruct n.
Qed.

Lemma no_markup_escape_char c :
  Ascii.eqb c "<" = false -> no_markup (escape_char c) = true.
Proof.
  intros Hc. unfold escape_char.
  repeat match goal with
         | |- context [if ?b then _ else _] => destruct b; [reflexivity|]
         end.
  destruct (Nat.ltb (nat_of_ascii c) 32).
  - cbn -[hex_digit Nat.div Nat.modulo]. now rewrite !hex_digit_no_markup.
  - cbn. now rewrite Hc.
Qed.

Lemma no_markup_escape_string s :
  no_markup s = true -> no_markup (escape_string s) = true.
Proof.
  induction s as [|c s IH]; simpl; [reflexivity|].
  intros H. apply andb_true_iff in H as [Hc Hs].
  rewrite no_markup_append, (IH Hs), andb_true_r.
  apply no_markup_escape_char. now destruct (Ascii.eqb c "<").
Qed.

Lemma no_markup_JSON_stringify_string s :
  no_markup s = true -> no_markup (JSON_stringify_string s) = true.
Proof.
  intros H. unfold JSON_stringify_string.
  now rewrite !no_markup_append, (no_markup_escape_string _ H).
Qed.

Lemma no_markup_concat sep l :
  no_markup sep = true ->
  Forall (fun s => no_markup s = true) l ->
  no_markup (String.concat sep l) = true.
Proof.
  intros Hsep. induction l as [|s l IH]; intros H; [reflexivity|].
  inversion H as [|? ? Hs Hl]; subst.
  destruct l as [|s' l]; [exact Hs|].
  change (String.concat sep (s :: s' :: l))
    with (s +++ sep +++ String.concat sep (s' :: l)).
  now rewrite !no_markup_append, Hs, Hsep, (IH Hl).
Qed.

Lemma no_markup_stringified elems :
  forallb no_markup elems = true ->
  Forall (fun s => no_markup s = true) (map JSON_stringify_string elems).
Proof.
  intros H. apply Forall_map. apply Forall_forall. intros e He.
  apply no_markup_JSON_stringify_string.
  rewrite forallb_forall in H. now apply H.
Qed.

Lemma no_markup_JSON_stringify v :
  no_markup_value v = true -> no_markup (JSON_stringify v) = true.
Proof.
  destruct v as [[|]|s|elems]; cbn [no_markup_value JSON_stringify];
    try reflexivity.
  - apply no_markup_JSON_stringify_string.
  - intros H. rewrite !no_markup_append.
    now rewrite (no_markup_concat "," _ eq_refl (no_markup_stringified _ H)).
Qed.

Lemma no_markup_jsonifyArray elems indent :
  forallb no_markup elems = true ->
  no_markup indent = true ->
  no_markup (jsonifyArray elems indent) = true.
Proof.
  intros H Hindent. rewrite jsonifyArray_concat, !no_markup_append.
  rewrite (no_markup_concat (continuation indent) _);
    [reflexivity | | now apply no_markup_stringified].
  unfold continuation. now rewrite !no_markup_append, Hindent.
Qed.

Lemma no_markup_properties_text jv props indent : forall first,
  no_markup indent = true ->
  Forall (fun e => no_markup (fst e) = true
                   /\ no_markup (jv (fst e) (snd e) indent) = true) props ->
  no_markup (properties_text jv props indent first) = true.
Proof.
  induction props as [|[property value] rest IH]; intros first Hindent H;
    cbn [properties_text]; [reflexivity|].
  inversion H as [|? ? [Hp Hv] Hrest]; subst. cbn [fst snd] in Hp, Hv.
  rewrite !no_markup_append, Hindent, Hp, Hv, (IH false Hindent Hrest).
  now destruct first.
Qed.

Lemma no_markup_jsonifyObject_with jv props indent :
  no_markup indent = true ->
  Forall (fun e => no_markup (fst e) = true
                   /\ no_markup (jv (fst e) (snd e) indent) = true) props ->
  no_markup (jsonifyObject_with jv props indent) = true.
Proof.
  intros Hindent H. rewrite jsonifyObject_with_text.
  destruct props as [|e rest]; [reflexivity|].
  now rewrite !no_markup_append, Hindent,
    (no_markup_properties_text jv (e :: rest) indent true Hindent H).
Qed.

Lemma no_markup_jsonifyValue property v indent :
  no_markup_value v = true ->
  no_markup indent = true ->
  no_markup (jsonifyValue property (JValue v) indent) = true.
Proof.
  intros Hv Hindent. destruct v as [b|s|elems]; cbn [jsonifyValue].
  - now apply no_markup_JSON_stringify.
  - now apply no_markup_JSON_stringify.
  - apply no_markup_jsonifyArray; [exact Hv|].
    rewrite no_markup_append, Hindent.
    now rewrite no_markup_substring.
Qed.

Lemma no_markup_jsonifyObject m :
  no_markup_metadata m ->
  no_markup (jsonifyObject (json_of_metadata m) EmptyString) = true.
Proof.
  intros H. unfold jsonifyObject.
  apply no_markup_jsonifyObject_with; [reflexivity|].
  unfold json_of_metadata. apply Forall_map.
  eapply Forall_impl; [|exact H].
  intros [testName testMetadata] [Hname Hprops]. cbn [fst snd] in *.
  split; [exact Hname|].
  cbn [json_of_testMetadata jsonifyValue].
  apply no_markup_jsonifyObject_with; [reflexivity|].
  apply Forall_map. eapply Forall_impl; [|exact Hprops].
  intros [property v] [Hp Hv]. cbn [fst snd] in *.
  split; [exact Hp|]. now apply no_markup_jsonifyValue.
Qed.

Lemma script_text_no_markup text rest :
  no_markup text = true ->
  script_text ScriptData (text +++ "</script>" +++ rest) = Some text.
Proof.
  induction text as [|c text IH]; intros H.
  - reflexivity.
  - simpl in H. apply andb_true_iff in H as [Hc Htext].
    cbn [append script_text].
    destruct (Ascii.eqb c "<"); [discriminate|].
    cbn [after_character].
    specialize (IH Htext). cbn [append] in IH. now rewrite IH.
Qed.

Lemma read_source_generateSource p :
  safe_metadata (metadata p) ->
  no_markup_metadata (metadata p) ->
  read_source (generateSource p) = Some (metadata p).
Proof.
  intros Hsafe Hplain. unfold read_source.
  assert (Hsrc : generateSource p =
                 script_start_tag +++
                 (source_statement +++
                  jsonifyObject (json_of_metadata (metadata p)) EmptyString +++
                  nl) +++ "</script>" +++ nl).
  { unfold generateSource, script_start_tag, source_statement.
    now rewrite !append_assoc. }
  rewrite Hsrc at 1. rewrite strip_prefix_append.
  rewrite script_text_no_markup.
  - rewrite strip_prefix_append.
    now rewrite (read_metadata_jsonifyObject _ _ Hsafe).
  - unfold source_statement.
    now rewrite !no_markup_append, (no_markup_jsonifyObject _ Hplain).
Qed.

Lemma In_obj_set {A} (o : obj A) k v e :
  In e (obj_set o k v) -> In e o \/ e = (k, v).
Proof.
  unfold obj_set. destruct (hasOwnProperty o k).
  - induction o as [|[k' v'] rest IH]; simpl; [tauto|].
    destruct (String.eqb_spec k' k) as [->|Hne]; simpl.
    + intros [<-|H]; [now right | left; now right].
    + intros [<-|H]; [left; now left|].
      destruct (IH H) as [H'|H']; [left; now right | now right].
  - destruct (array_index k) as [n|].
    + induction o as [|[k' v'] rest IH]; simpl.
      * intros [<-|[]]. now right.
      * destruct (array_index k') as [n'|]; [destruct (n' <? n)%N|]; simpl.
        -- intros [<-|H]; [left; now left|].
           destruct (IH H) as [H'|H']; [left; now right | now right].
        -- intros [<-|H]; [now right | now left].
        -- intros [<-|H]; [now right | now left].
    + intros H. apply in_app_or in H as [H|[<-|[]]]; [now left | now right].
Qed.

Lemma process_loop_entries tests p e :
  In e (metadata (process_loop tests p)) ->
  In e (metadata p)
  \/ exists test, In test tests /\ e = (name test, extractFromTest test).
Proof.
  revert p. induction tests as [|test rest IH]; intros p; simpl; [now left|].
  intros H. apply IH in H as [H|[t [Ht He]]].
  - destruct (metadata_truthy (metadata p) (name test)); [now left|].
    cbn [set_metadata metadata] in H.
    apply In_obj_set in H as [H|H]; [now left|].
    right. exists test. split; [now left | exact H].
  - right. exists t. split; [now right | exact He].
Qed.

Lemma extractFromTest_safe test :
  Forall safe_name (own_keys (extractFromTest test)).
Proof.
  rewrite extractFromTest_own_keys.
  apply Forall_forall. intros k Hk. apply filter_In in Hk as [Hk _].
  simpl in Hk. destruct Hk as [<-|[<-|[<-|[]]]]; reflexivity.
Qed.

(** C5, at a test name with a double quote in it.  [jsonifyObject] writes a
    property name between double quotes as it is, where the values go through
    [JSON.stringify].  The run of the one test [t_quoted] and the run of the
    two tests named t1 and t2 give the same source text, although the
    former has one name in its mapping and the latter two; whatever reads
    the text back, it cannot return the names of both mappings.  Read back,
    the text of [t_quoted] is the mapping of the two names t1 and t2, and the
    text for the test named a, double quote, b is no literal. *)
Theorem generateSource_writes_names_unescaped :
  let one := process [t_quoted] (initial_page None []) in
  let two := process [t_plain1; t_plain2] (initial_page None []) in
  generateSource one = generateSource two
  /\ generateSource one =
     "<script id=" +++ dq +++ "test_metadata" +++ dq +++ ">" +++ nl +++
     "var cached_metadata = {" +++ nl +++
     "  " +++ dq +++ "t1" +++ dq +++ ": {}," +++ nl +++
     "  " +++ dq +++ "t2" +++ dq +++ ": {}" +++ nl +++
     "}" +++ nl +++
     "</script>" +++ nl
  /\ metadata one = [(name t_quoted, [])]
  /\ metadata two = [("t1", []); ("t2", [])]
  /\ read_source (generateSource one) = Some [("t1", []); ("t2", [])]
  /\ read_source (generateSource (process [t_ab] (initial_page None []))) = None
  /\ ~ same_names (metadata one) (metadata two)
  /\ forall parse : string -> option (obj (obj value)),
      ~ (exists m1 m2,
            parse (generateSource one) = Some m1
            /\ same_names m1 (metadata one)
            /\ parse (generateSource two) = Some m2
            /\ same_names m2 (metadata two)).
Proof.
  cbv zeta.
  assert (Hsrc : generateSource (process [t_quoted] (initial_page None [])) =
                 generateSource (process [t_plain1; t_plain2] (initial_page None [])))
    by reflexivity.
  assert (Hdiff : ~ same_names
                      (metadata (process [t_quoted] (initial_page None [])))
                      (metadata (process [t_plain1; t_plain2] (initial_page None [])))).
  { intros H. specialize (H "t1"). vm_compute in H. discriminate. }
  split; [exact Hsrc|]. split; [reflexivity|].
  split; [reflexivity|]. split; [reflexivity|].
  split; [reflexivity|]. split; [reflexivity|].
  split; [exact Hdiff|].
  intros parse [m1 [m2 [H1 [Hn1 [H2 Hn2]]]]].
  rewrite Hsrc in H1. rewrite H1 in H2. injection H2 as ->.
  apply Hdiff. intros testName. now rewrite <- Hn1, <- Hn2.
Qed.

(** ** Scenarios of the specification *)

(** Two tests, no cached mapping: the warning, and the source text. *)
Example scenario_cache_not_present :
  document (process [t1; t2] (initial_page None [])) =
  [ Element "p" [("id", "metadata_issue"); ("class", "warning")]
      [Text "Cached metdata not present. "; link_element] ]
  /\ generateSource (process [t1; t2] (initial_page None [])) =
     "<script id=" +++ dq +++ "test_metadata" +++ dq +++ ">" +++ nl +++
     "var cached_metadata = {" +++ nl +++
     "  " +++ dq +++ "t1" +++ dq +++ ": {" +++ nl +++
     "    " +++ dq +++ "help" +++ dq +++ ": [" +++ dq +++ "h1" +++ dq +++ "]" +++ nl +++
     "  }," +++ nl +++
     "  " +++ dq +++ "t2" +++ dq +++ ": {" +++ nl +++
     "    " +++ dq +++ "assert" +++ dq +++ ": [" +++ dq +++ "a1" +++ dq +++ "," +++ nl +++
     "               " +++ dq +++ "a2" +++ dq +++ "]" +++ nl +++
     "  }" +++ nl +++
     "}" +++ nl +++
     "</script>" +++ nl.
Proof. split; reflexivity. Qed.

(** The cached mapping matches: nothing is reported, and the cached mapping
    is left empty. *)
Example scenario_cache_matches :
  process [t1; t2]
    (initial_page
       (Some [("t2", [("assert", VArray ["a1"; "a2"])]);
              ("t1", [("help", VArray ["h1"])])])
       [Element "div" [("id", "summary")] []]) =
  mkPage [("t1", [("help", VArray ["h1"])]);
          ("t2", [("assert", VArray ["a1"; "a2"])])]
         (Some [])
         [Element "div" [("id", "summary")] []].
Proof. reflexivity. Qed.

(** The cached mapping has one more line of help for t1: the error, put
    before the summary. *)
Example scenario_cache_out_of_sync :
  document
    (process [t1]
       (initial_page (Some [("t1", [("help", VArray ["h1"; "h2"])])])
          [Element "div" [("id", "summary")] []])) =
  [ Element "p" [("id", "metadata_issue"); ("class", "error")]
      [Text "Cached metadata out of sync. "; link_element];
    Element "div" [("id", "summary")] [] ].
Proof. reflexivity. Qed.

(** Activating the link after [process] has returned renders the mapping
    that the generator has kept. *)
Example addSourceElement_renders_kept_metadata :
  option_map document (addSourceElement (process [t1] (initial_page None []))) =
  Some
    [ Element "div" [("id", "metadata_source")]
        [ Element "p" []
            [Text "Copy the following into the <head> element of the test or the test's metadata sidecar file:"];
          Element "pre" []
            [Text (generateSource (set_metadata (initial_page None [])
                                     [("t1", [("help", VArray ["h1"])])]))] ] ].
Proof. reflexivity. Qed.

(** * Further properties *)

(** ** The document *)

Lemma before_from_id id doc : doc = before_id id doc ++ from_id id doc.
Proof.
  induction doc as [|n rest IH]; simpl; [reflexivity|].
  destruct (has_id id n); simpl; [reflexivity | now rewrite <- IH].
Qed.

Lemma before_id_no_id id doc :
  Forall (fun n => has_id id n = false) (before_id id doc).
Proof.
  induction doc as [|n rest IH]; simpl; [constructor|].
  destruct (has_id id n) eqn:Hid; [constructor | now constructor].
Qed.

Lemma from_id_head id doc :
  from_id id doc = []
  \/ exists n rest, from_id id doc = n :: rest /\ has_id id n = true.
Proof.
  induction doc as [|n rest IH]; simpl; [now left|].
  destruct (has_id id n) eqn:Hid; [right; eauto | exact IH].
Qed.

Lemma from_id_nil id doc :
  from_id id doc = [] <-> existsb (has_id id) doc = false.
Proof.
  induction doc as [|n rest IH]; simpl; [tauto|].
  destruct (has_id id n); simpl; [split; discriminate | exact IH].
Qed.

Lemma insert_message_split doc messageElement :
  insert_message doc messageElement =
  before_id "summary" doc ++ messageElement :: from_id "summary" doc.
Proof.
  unfold insert_message, getElementById.
  destruct (find (has_id "summary") doc) as [summary|] eqn:Hfind.
  - revert Hfind. induction doc as [|n rest IH]; simpl; [discriminate|].
    destruct (has_id "summary" n); simpl; [reflexivity|].
    intros Hfind. now rewrite IH.
  - assert (Hnone : existsb (has_id "summary") doc = false).
    { destruct (existsb (has_id "summary") doc) eqn:Hex; [|reflexivity].
      apply existsb_exists in Hex as [x [Hin Hx]].
      pose proof (find_none _ _ Hfind x Hin). congruence. }
    apply from_id_nil in Hnone. rewrite Hnone.
    rewrite (before_from_id "summary" doc) at 1. now rewrite Hnone, app_nil_r.
Qed.

Lemma before_id_app id l1 l2 :
  Forall (fun n => has_id id n = false) l1 ->
  before_id id (l1 ++ l2) = l1 ++ before_id id l2.
Proof.
  induction 1 as [|n l1 Hn _ IH]; simpl; [reflexivity|].
  now rewrite Hn, IH.
Qed.

Lemma from_id_app id l1 l2 :
  Forall (fun n => has_id id n = false) l1 ->
  from_id id (l1 ++ l2) = from_id id l2.
Proof.
  induction 1 as [|n l1 Hn _ IH]; simpl; [reflexivity|].
  now rewrite Hn.
Qed.

Lemma before_id_from_id id doc : before_id id (from_id id doc) = [].
Proof.
  destruct (from_id_head id doc) as [->|[n [rest [-> Hn]]]]; simpl;
    [reflexivity | now rewrite Hn].
Qed.

Lemma from_id_from_id id doc : from_id id (from_id id doc) = from_id id doc.
Proof.
  destruct (from_id_head id doc) as [->|[n [rest [-> Hn]]]]; simpl;
    [reflexivity | now rewrite Hn].
Qed.

(** Messages that are no summary themselves pile up, in the order in which
    they are put in, before the summary. *)
Lemma insert_messages_split messages doc :
  Forall (fun n => has_id "summary" n = false) messages ->
  fold_left insert_message messages doc =
  before_id "summary" doc ++ messages ++ from_id "summary" doc.
Proof.
  intros Hall. revert doc.
  induction Hall as [|m messages Hm _ IH]; intros doc; simpl.
  - apply before_from_id.
  - rewrite IH, insert_message_split.
    pose proof (before_id_no_id "summary" doc) as Hbefore.
    rewrite before_id_app, from_id_app by exact Hbefore.
    simpl. rewrite Hm. simpl.
    destruct (from_id_head "summary" doc) as [Hnil|[n [rest [Hfrom Hn]]]].
    + rewrite Hnil. simpl. now rewrite <- app_assoc.
    + rewrite Hfrom. simpl. rewrite Hn. now rewrite <- app_assoc.
Qed.

Lemma report_duplicates_split doc tests :
  report_duplicates doc tests =
  before_id "summary" doc ++ map duplicate_message tests
  ++ from_id "summary" doc.
Proof.
  unfold report_duplicates.
  rewrite <- (insert_messages_split (map duplicate_message tests) doc).
  - generalize doc. induction tests as [|test rest IH]; intros d; simpl;
      [reflexivity | apply IH].
  - apply Forall_forall. intros n Hn.
    apply in_map_iff in Hn as [test [<- _]]. reflexivity.
Qed.


(** X1.  [error] changes the document only: it puts one [p] element of class
    error with the message as its text directly before the first node with
    id summary, or behind the last node when there is no summary, and keeps
    the other nodes and their order. *)
Theorem error_puts_message_before_summary (message : string) (p : page) :
  error message p =
  mkPage (metadata p) (cached_metadata p)
    (before_id "summary" (document p)
     ++ Element "p" [("class", "error")] [Text message]
     :: from_id "summary" (document p))
  /\ document p =
     before_id "summary" (document p) ++ from_id "summary" (document p)
  /\ Forall (fun n => has_id "summary" n = false)
       (before_id "summary" (document p))
  /\ (from_id "summary" (document p) = []
      \/ exists summary rest,
          from_id "summary" (document p) = summary :: rest
          /\ has_id "summary" summary = true).
Proof.
  split; [|split; [|split]].
  - unfold error, set_document. now rewrite insert_message_split.
  - apply before_from_id.
  - apply before_id_no_id.
  - apply from_id_head.
Qed.



Lemma replace_by_id_split id doc new :
  from_id id doc <> [] ->
  replace_by_id doc id new = before_id id doc ++ new :: after_id id doc.
Proof.
  unfold after_id. induction doc as [|n rest IH]; simpl; [congruence|].
  destruct (has_id id n); simpl; [reflexivity|].
  intros H. now rewrite IH.
Qed.

Lemma getElementById_from_id doc id :
  getElementById doc id = hd_error (from_id id doc).
Proof.
  unfold getElementById. induction doc as [|n rest IH]; simpl; [reflexivity|].
  destruct (has_id id n); [reflexivity | exact IH].
Qed.



(** X3.  [addSourceElement] throws exactly when the document has no node
    with id [metadata_issue].  Otherwise it changes the document only: the
    first such node gives its place to a [div] with id [metadata_source]
    that holds the instructions and, in a [pre], the text of
    [generateSource]; all other nodes stay where they are. *)
Theorem addSourceElement_replaces_issue_message (p : page) :
  match addSourceElement p with
  | None => existsb (has_id "metadata_issue") (document p) = false
  | Some q =>
      metadata q = metadata p
      /\ cached_metadata q = cached_metadata p
      /\ (exists issue,
             document p =
             before_id "metadata_issue" (document p)
             ++ issue :: after_id "metadata_issue" (document p)
             /\ has_id "metadata_issue" issue = true)
      /\ document q =
         before_id "metadata_issue" (document p)
         ++ Element "div" [("id", "metadata_source")]
              [ Element "p" []
                  [Text "Copy the following into the <head> element of the test or the test's metadata sidecar file:"];
                Element "pre" [] [Text (generateSource p)] ]
         :: after_id "metadata_issue" (document p)
      /\ Forall (fun n => has_id "metadata_issue" n = false)
           (before_id "metadata_issue" (document p))
  end.
Proof.
  unfold addSourceElement. rewrite getElementById_from_id.
  destruct (from_id_head "metadata_issue" (document p))
    as [Hnil|[issue [rest [Hfrom Hissue]]]].
  - rewrite Hnil. simpl. now apply from_id_nil.
  - rewrite Hfrom. simpl.
    split; [reflexivity|]. split; [reflexivity|]. split; [|split].
    + exists issue. split; [|exact Hissue].
      unfold after_id. rewrite Hfrom. simpl. rewrite <- Hfrom.
      apply before_from_id.
    + rewrite replace_by_id_split by (rewrite Hfrom; discriminate).
      reflexivity.
    + apply before_id_no_id.
Qed.



(** ** Validator, for booleans, strings and sequences *)

Lemma validateCache_true_empty metadata cached :
  fst (validateCache metadata cached) = true ->
  snd (validateCache metadata cached) = [].
Proof.
  rewrite validateCache_fst, validateCache_snd, andb_true_iff.
  intros [_ H]. now apply is_empty_nil.
Qed.

Lemma validateCache_true_entries metadata cached :
  NoDup (own_keys metadata) ->
  fst (validateCache metadata cached) = true <->
  (forall testName testMetadata,
      obj_get metadata testName = Some testMetadata ->
      entry_matches cached (testName, testMetadata))
  /\ (forall k, In k (own_keys cached) -> In k (own_keys metadata)).
Proof.
  intros Hnd.
  rewrite validateCache_fst, andb_true_iff, (validateCache_loop_true _ _ Hnd),
    (forall_entries_get _ _ Hnd), is_empty_nil.
  destruct (validateCache_loop_visited metadata cached)
    as [visited [pending [Hkeys [Hsnd Htrue]]]].
  split.
  - intros [Hall Hempty]. split; [exact Hall|].
    assert (Hfst : fst (validateCache_loop metadata cached) = true).
    { now apply (validateCache_loop_true _ _ Hnd), (forall_entries_get _ _ Hnd). }
    rewrite Hsnd in Hempty. rewrite Hkeys, (Htrue Hfst), app_nil_r.
    exact (proj1 (obj_delete_all_empty _ _) Hempty).
  - intros [Hall Hsup]. split; [exact Hall|].
    assert (Hfst : fst (validateCache_loop metadata cached) = true).
    { now apply (validateCache_loop_true _ _ Hnd), (forall_entries_get _ _ Hnd). }
    rewrite Hsnd. apply (proj2 (obj_delete_all_empty _ _)).
    rewrite Hkeys, (Htrue Hfst), app_nil_r in Hsup. exact Hsup.
Qed.

Lemma properties_agree_compare cachedTestMetadata testMetadata :
  forallb (compare_property cachedTestMetadata testMetadata) metadataProperties
  = true <->
  properties_agree cachedTestMetadata testMetadata.
Proof.
  rewrite forallb_forall. unfold properties_agree, same_as_compared.
  split; intros H meta Hin; apply compare_property_true; now apply H.
Qed.

Lemma validateCache_true_agree metadata cached :
  NoDup (own_keys metadata) ->
  fst (validateCache metadata cached) = true <->
  (forall testName,
      hasOwnProperty metadata testName = hasOwnProperty cached testName)
  /\ (forall testName testMetadata cachedTestMetadata,
         obj_get metadata testName = Some testMetadata ->
         obj_get cached testName = Some cachedTestMetadata ->
         properties_agree cachedTestMetadata testMetadata).
Proof.
  intros Hnd. rewrite (validateCache_true_entries _ _ Hnd). split.
  - intros [Hall Hsup]. split.
    + intros testName.
      destruct (hasOwnProperty metadata testName) eqn:Hm.
      * apply hasOwnProperty_get in Hm as [tm Htm].
        destruct (Hall _ _ Htm) as [cm [Hcm _]]. cbn [fst] in Hcm.
        symmetry. apply hasOwnProperty_get. eauto.
      * destruct (hasOwnProperty cached testName) eqn:Hc; [|reflexivity].
        apply own_keys_get, Hsup, own_keys_get in Hc. congruence.
    + intros testName tm cm Htm Hcm.
      destruct (Hall _ _ Htm) as [cm' [Hcm' Hok]]. cbn [fst snd] in Hcm', Hok.
      assert (cm' = cm) by congruence. subst cm'.
      now apply properties_agree_compare.
  - intros [Hnames Hagree]. split.
    + intros testName tm Htm.
      assert (Hc : hasOwnProperty cached testName = true).
      { rewrite <- Hnames. apply hasOwnProperty_get. eauto. }
      apply hasOwnProperty_get in Hc as [cm Hcm].
      exists cm. split; [exact Hcm|]. cbn [snd].
      apply properties_agree_compare. now apply (Hagree testName).
    + intros k Hk. apply own_keys_get. rewrite Hnames.
      now apply own_keys_get.
Qed.

Lemma obj_get_delete_all {A} (o : obj A) ks k :
  obj_get (obj_delete_all o ks) k =
  if existsb (String.eqb k) ks then None else obj_get o k.
Proof.
  unfold obj_delete_all. revert o.
  induction ks as [|k0 ks IH]; intros o; simpl; [reflexivity|].
  rewrite IH, obj_get_delete, (String.eqb_sym k k0).
  destruct (String.eqb k0 k); simpl; [|reflexivity].
  now destruct (existsb (String.eqb k) ks).
Qed.



(** X7.  [validateCache] only deletes.  An entry that it leaves in the
    cached mapping was there before, unchanged, and the entries under names
    that the extracted mapping does not have are all left. *)
Theorem validateCache_touches_extracted_names_only
  (metadata cached : obj (obj value)) (testName : string) :
  (forall cachedTestMetadata,
      obj_get (snd (validateCache metadata cached)) testName =
      Some cachedTestMetadata ->
      obj_get cached testName = Some cachedTestMetadata)
  /\ (hasOwnProperty metadata testName = false ->
      obj_get (snd (validateCache metadata cached)) testName =
      obj_get cached testName).
Proof.
  destruct (validateCache_loop_visited metadata cached)
    as [visited [pending [Hkeys [Hsnd _]]]].
  rewrite validateCache_snd, Hsnd, obj_get_delete_all.
  split.
  - intros cm. now destruct (existsb (String.eqb testName) visited).
  - intros Hhas.
    destruct (existsb (String.eqb testName) visited) eqn:Hex; [|reflexivity].
    apply existsb_exists in Hex as [k [Hin Hk]].
    apply String.eqb_eq in Hk. subst k.
    assert (Hown : In testName (own_keys metadata))
      by (rewrite Hkeys; apply in_or_app; now left).
    apply own_keys_get in Hown. congruence.
Qed.

Lemma validateCache_touches_extracted_names_only_witness :
  obj_get
    (snd (validateCache [("t1", [("help", VArray ["h1"])])]
            [("t1", [("help", VArray ["h2"])]); ("t3", [])]))
    "t3" = Some [].
Proof.
  destruct (validateCache_touches_extracted_names_only
              [("t1", [("help", VArray ["h1"])])]
              [("t1", [("help", VArray ["h2"])]); ("t3", [])] "t3")
    as [_ Hleft].
  rewrite Hleft; reflexivity.
Defined.



(** ** Runs of the generator *)

Lemma process_loop_recorded tests p e :
  In e (metadata (process_loop tests p)) ->
  In e (metadata p)
  \/ exists test,
      In test tests /\ e = (name test, extractFromTest test)
      /\ inherited (name test) = false.
Proof.
  revert p. induction tests as [|test rest IH]; intros p; simpl; [now left|].
  intros H. apply IH in H as [H|[t [Ht He]]].
  - unfold metadata_truthy in H.
    destruct (obj_get (metadata p) (name test)); [now left|].
    destruct (inherited (name test)) eqn:Hinh; [now left|].
    cbn [set_metadata metadata] in H.
    apply In_obj_set in H as [H|H]; [now left|].
    right. exists test. split; [now left | now split].
  - right. exists t. split; [now right | exact He].
Qed.

Lemma process_loop_metadata_only tests p p' :
  metadata p = metadata p' ->
  metadata (process_loop tests p) = metadata (process_loop tests p').
Proof.
  revert p p'. induction tests as [|test rest IH]; intros p p' Hm; simpl.
  - exact Hm.
  - apply IH. rewrite Hm.
    destruct (metadata_truthy (metadata p') (name test)); [exact Hm|].
    reflexivity.
Qed.

Lemma validateCache_self (m : obj (obj value)) :
  NoDup (own_keys m) -> validateCache m m = (true, []).
Proof.
  intros Hnd.
  assert (Hfst : fst (validateCache m m) = true).
  { apply (validateCache_true_agree _ _ Hnd). split; [reflexivity|].
    intros testName tm cm Htm Hcm meta Hin.
    assert (cm = tm) by congruence. subst cm.
    destruct (obj_get tm meta); [|exact I].
    split; [reflexivity | intros; reflexivity]. }
  pose proof (validateCache_true_empty _ _ Hfst) as Hsnd.
  destruct (validateCache m m) as [valid cached']. simpl in *. now subst.
Qed.

Lemma process_loop_initial_NoDup tests cached doc :
  NoDup (own_keys (metadata (process_loop tests (initial_page cached doc)))).
Proof. apply process_loop_NoDup. constructor. Qed.


Lemma process_safe_metadata tests cached doc :
  (forall test, In test tests -> safe_name (name test)) ->
  safe_metadata (metadata (process tests (initial_page cached doc))).
Proof.
  intros Hsafe. unfold process. rewrite report_metadata.
  apply Forall_forall. intros e He.
  apply process_loop_entries in He as [[]|[test [Hin ->]]].
  split; [now apply Hsafe | apply extractFromTest_safe].
Qed.

(** X10.  What a run on a freshly loaded generator records.  The names of
    the extracted mapping are distinct; each entry is the name of a test of
    the run with what [extractFromTest] returns for it; no name of a property
    of [Object.prototype] is recorded; and a recorded sub-mapping has no key
    besides help, assert and author. *)
Theorem process_records_extracted_metadata_only
  (tests : list Test) (cached : option (obj (obj value))) (doc : list node) :
  NoDup (own_keys (metadata (process tests (initial_page cached doc))))
  /\ Forall
       (fun entry =>
          (exists test,
              In test tests
              /\ entry = (name test, extractFromTest test))
          /\ inherited (fst entry) = false
          /\ incl (own_keys (snd entry)) metadataProperties)
       (metadata (process tests (initial_page cached doc))).
Proof.
  unfold process. rewrite report_metadata. split.
  - apply process_loop_NoDup. constructor.
  - apply Forall_forall. intros e He.
    apply process_loop_recorded in He as [[]|[test [Hin [-> Hinh]]]].
    split; [eauto|]. split; [exact Hinh|].
    cbn [snd]. rewrite extractFromTest_own_keys.
    intros k Hk. now apply filter_In in Hk as [Hk _].
Qed.


(** ** Extractor and renderer *)

Lemma extractFromTest_get (test : Test) (k : string) :
  obj_get (extractFromTest test) k =
  if existsb (String.eqb k) metadataProperties
  then obj_get (properties test) k
  else None.
Proof.
  rewrite extractFromTest_cases. unfold metadataProperties.
  cbn [existsb]. rewrite !obj_get_app, !obj_get_singleton.
  rewrite (String.eqb_sym k "help"), (String.eqb_sym k "assert"),
    (String.eqb_sym k "author").
  destruct (String.eqb_spec "help" k) as [<-|H1].
  - cbn [orb]. now destruct (obj_get (properties test) "help").
  - destruct (String.eqb_spec "assert" k) as [<-|H2].
    + cbn [orb]. now destruct (obj_get (properties test) "assert").
    + destruct (String.eqb_spec "author" k) as [<-|H3]; cbn [orb].
      * now destruct (obj_get (properties test) "author").
      * reflexivity.
Qed.

Lemma extractFromTest_same_lookups (test test' : Test) :
  (forall meta, In meta metadataProperties ->
                obj_get (properties test) meta = obj_get (properties test') meta) ->
  extractFromTest test = extractFromTest test'.
Proof.
  intros H. rewrite !extractFromTest_cases.
  rewrite (H "help"), (H "assert"), (H "author") by (simpl; tauto).
  reflexivity.
Qed.

(** X14.  [jsonifyObject] renders the empty object as an opening and a
    closing brace with nothing between them.  An object with properties is
    rendered as the opening brace, one line for each property, in the order
    of the object, with two spaces and the indent before the quoted name and
    a comma behind every value but the last, then a line with the indent and
    the closing brace.  A value that is an object is rendered the same way
    with two more spaces of indent. *)
Theorem jsonifyObject_one_property_per_line :
  (forall indent, jsonifyObject [] indent = "{}")
  /\ (forall property value rest indent,
         jsonifyObject ((property, value) :: rest) indent =
         "{" +++ nl +++ "  " +++ indent +++ dq +++ property +++ dq +++ ": " +++
         jsonifyValue property value indent +++
         properties_text jsonifyValue rest indent false +++
         nl +++ indent +++ "}")
  /\ (forall property value rest indent,
         properties_text jsonifyValue ((property, value) :: rest) indent false =
         "," +++ nl +++ "  " +++ indent +++ dq +++ property +++ dq +++ ": " +++
         jsonifyValue property value indent +++
         properties_text jsonifyValue rest indent false)
  /\ (forall property objectValue indent,
         jsonifyValue property (JObject objectValue) indent =
         jsonifyObject objectValue (indent +++ "  ")).
Proof.
  split; [reflexivity|]. split; [|split; reflexivity].
  intros property value rest indent. unfold jsonifyObject.
  rewrite jsonifyObject_with_text. cbn [properties_text].
  now rewrite !append_assoc.
Qed.

(** X15.  The indent that [jsonifyObject] hands to [jsonifyArray] is cut at
    sixteen spaces.  It is the indent with 5 spaces and one more for each
    character of the property name, up to sixteen; under a name of more than
    eleven characters the continuation lines start left of the first
    element. *)
Theorem jsonifyObject_cuts_the_indent_at_sixteen :
  (forall property arrayValue indent,
      jsonifyValue property (JValue (VArray arrayValue)) indent =
      jsonifyArray arrayValue
        (indent +++ spaces (Nat.min (5 + String.length property) 16)))
  /\ (forall property indent,
         11 < String.length property ->
         String.length
           ("  " +++ indent +++
            spaces (Nat.min (5 + String.length property) 16)) <
         String.length
           ("  " +++ indent +++ dq +++ property +++ dq +++ ": " +++ "[")).
Proof.
  split.
  - intros property arrayValue indent. cbn [jsonifyValue].
    change sixteen_spaces with (spaces 16). now rewrite substring_spaces.
  - intros property indent Hlong.
    rewrite !length_append, length_spaces. simpl. lia.
Qed.

Lemma jsonifyObject_cuts_the_indent_at_sixteen_witness :
  String.length
    ("  " +++ EmptyString +++
     spaces (Nat.min (5 + String.length "specification")%nat 16)) <
  String.length
    ("  " +++ EmptyString +++ dq +++ "specification" +++ dq +++ ": " +++ "[").
Proof.
  destruct jsonifyObject_cuts_the_indent_at_sixteen as [_ Hlong].
  apply Hlong. simpl. lia.
Defined.

(** * The code on all objects *)

Lemma call_hasOwnProperty_visible {A} (o : obj A) k :
  hides_hasOwnProperty o = false ->
  call_hasOwnProperty o k = Some (hasOwnProperty o k).
Proof. unfold call_hasOwnProperty. now intros ->. Qed.

Lemma call_hasOwnProperty_hidden {A} (o : obj A) k :
  hides_hasOwnProperty o = true -> call_hasOwnProperty o k = None.
Proof. unfold call_hasOwnProperty. now intros ->. Qed.

Lemma try_extractFromTest_eq (test : Test) :
  try_extractFromTest test =
  if hides_hasOwnProperty (properties test) then Throws tt
  else Returns (extractFromTest test).
Proof.
  unfold try_extractFromTest, extractFromTest, metadataProperties.
  cbn [try_extract_loop fold_left]. unfold call_hasOwnProperty.
  now destruct (hides_hasOwnProperty (properties test)).
Qed.

Lemma try_compare_property_eq cachedTestMetadata testMetadata meta :
  hides_hasOwnProperty cachedTestMetadata = false ->
  hides_hasOwnProperty testMetadata = false ->
  try_compare_property cachedTestMetadata testMetadata meta =
  Some (compare_property cachedTestMetadata testMetadata meta).
Proof.
  intros Hc Ht. unfold try_compare_property, compare_property, compare_values.
  rewrite !call_hasOwnProperty_visible by assumption.
  unfold hasOwnProperty.
  destruct (obj_get cachedTestMetadata meta);
    destruct (obj_get testMetadata meta); reflexivity.
Qed.

Lemma try_compare_properties_eq cachedTestMetadata testMetadata metas :
  hides_hasOwnProperty cachedTestMetadata = false ->
  hides_hasOwnProperty testMetadata = false ->
  try_compare_properties cachedTestMetadata testMetadata metas =
  Some (forallb (compare_property cachedTestMetadata testMetadata) metas).
Proof.
  intros Hc Ht. induction metas as [|meta rest IH]; cbn [try_compare_properties forallb].
  - reflexivity.
  - rewrite try_compare_property_eq by assumption.
    destruct (compare_property cachedTestMetadata testMetadata meta);
      [exact IH | reflexivity].
Qed.

Lemma hides_delete {A} (o : obj A) k :
  k <> "hasOwnProperty" ->
  hides_hasOwnProperty (obj_delete o k) = hides_hasOwnProperty o.
Proof.
  intros Hk. unfold hides_hasOwnProperty, hasOwnProperty.
  rewrite obj_get_delete.
  destruct (String.eqb_spec k "hasOwnProperty"); [contradiction | reflexivity].
Qed.

Lemma Forall_delete {A} (P : string * A -> Prop) (o : obj A) k :
  Forall P o -> Forall P (obj_delete o k).
Proof.
  unfold obj_delete. intros H. apply Forall_forall. intros e He.
  apply filter_In in He as [He _]. rewrite Forall_forall in H. now apply H.
Qed.

Lemma try_validateCache_loop_eq metadata cached :
  nothing_hidden metadata cached ->
  try_validateCache_loop metadata cached =
  Returns (validateCache_loop metadata cached).
Proof.
  revert cached.
  induction metadata as [|[testName testMetadata] rest IH];
    intros cached [Hm [Hc Hentries]]; cbn [try_validateCache_loop validateCache_loop].
  - reflexivity.
  - rewrite (call_hasOwnProperty_visible _ _ Hc).
    destruct (obj_get cached testName) as [cachedTestMetadata|] eqn:Hget;
      [|reflexivity].
    inversion Hm as [|? ? Htm Hrest]; subst. cbn [snd] in Htm.
    assert (Hcm : hides_hasOwnProperty cachedTestMetadata = false).
    { rewrite Forall_forall in Hentries.
      exact (Hentries _ (obj_get_In _ _ _ Hget)). }
    rewrite (try_compare_properties_eq _ _ _ Hcm Htm).
    destruct (forallb (compare_property cachedTestMetadata testMetadata)
                metadataProperties); [|reflexivity].
    apply IH. split; [exact Hrest|]. split.
    + rewrite hides_delete; [exact Hc|].
      intros ->. unfold hides_hasOwnProperty, hasOwnProperty in Hc.
      now rewrite Hget in Hc.
    + now apply Forall_delete.
Qed.

Lemma try_validateCache_eq metadata cached :
  nothing_hidden metadata cached ->
  try_validateCache metadata cached = Returns (validateCache metadata cached).
Proof.
  intros H. unfold try_validateCache, validateCache.
  rewrite (try_validateCache_loop_eq _ _ H).
  destruct (validateCache_loop metadata cached) as [[|] cached'];
    [now destruct (own_keys cached') | reflexivity].
Qed.

Lemma nothing_hiddenb_sound metadata cached :
  nothing_hiddenb metadata cached = true -> nothing_hidden metadata cached.
Proof.
  unfold nothing_hiddenb, nothing_hidden.
  rewrite !andb_true_iff, !forallb_forall, !Forall_forall, negb_true_iff.
  intros [[Hm Hc] He].
  repeat split; try assumption; intros e Hin; apply negb_true_iff; auto.
Qed.

Lemma try_process_loop_eq tests p :
  (forall test, In test tests -> hides_hasOwnProperty (properties test) = false) ->
  try_process_loop tests p = Returns (process_loop tests p).
Proof.
  revert p. induction tests as [|test rest IH]; intros p Hall;
    cbn [try_process_loop process_loop]; [reflexivity|].
  assert (Hrest : forall t, In t rest -> hides_hasOwnProperty (properties t) = false)
    by (intros t Ht; apply Hall; now right).
  destruct (metadata_truthy (metadata p) (name test)); [now apply IH|].
  rewrite try_extractFromTest_eq, (Hall test) by now left.
  now apply IH.
Qed.

Lemma try_report_eq p :
  match cached_metadata p with
  | Some cached => nothing_hidden (metadata p) cached
  | None => True
  end ->
  try_report p = Returns (report p).
Proof.
  unfold try_report, report.
  destruct (cached_metadata p) as [cached|]; [|reflexivity].
  intros H. rewrite (try_validateCache_eq _ _ H).
  now destruct (validateCache (metadata p) cached) as [[|] cached'].
Qed.

Lemma try_process_eq tests p :
  (forall test, In test tests -> hides_hasOwnProperty (properties test) = false) ->
  match cached_metadata p with
  | Some cached => nothing_hidden (metadata (process_loop tests p)) cached
  | None => True
  end ->
  try_process tests p = Returns (process tests p).
Proof.
  intros Htests Hcache. unfold try_process, process.
  rewrite (try_process_loop_eq _ _ Htests).
  apply try_report_eq. now rewrite process_loop_cached_metadata.
Qed.

(** ** Extractor *)

(** C2, as the claim has it, fails: on a record whose properties have an own
    property named hasOwnProperty the extractor throws. *)
Lemma extractFromTest_throws_when_method_hidden :
  try_extractFromTest
    (mkTest "t" [("hasOwnProperty", VBool true); ("help", VArray ["h"])]) =
  Throws tt.
Proof. reflexivity. Qed.

(** C2, amended.  On a Test Record whose properties have an own property
    named hasOwnProperty, [extractFromTest] throws a TypeError at its first
    call of [test.properties.hasOwnProperty].  On every other record it
    returns a sub-mapping that has a key exactly when the key is one of help,
    assert, author and an own property of the record's properties, with the
    record's value under it, unchanged, and with the keys in the order help,
    assert, author.  [Object.prototype] has none of the three names, so no
    inherited value can take the place of an own one.  In [process] the call
    changes nothing but the entry that receives the result: the document and
    the cached mapping stay as they are. *)
Theorem try_extractFromTest_recognized_own_properties (test : Test) :
  (if hides_hasOwnProperty (properties test)
   then try_extractFromTest test = Throws tt
   else
     exists testMetadata,
       try_extractFromTest test = Returns testMetadata
       /\ (forall k,
              obj_get testMetadata k =
              if existsb (String.eqb k) ["help"; "assert"; "author"]
              then obj_get (properties test) k
              else None)
       /\ own_keys testMetadata =
          filter (hasOwnProperty (properties test))
            ["help"; "assert"; "author"])
  /\ Forall (fun k => inherited k = false) ["help"; "assert"; "author"]
  /\ (forall p testMetadata,
         metadata_truthy (metadata p) (name test) = false ->
         try_extractFromTest test = Returns testMetadata ->
         try_process_loop [test] p =
         Returns
           (mkPage (obj_set (metadata p) (name test) testMetadata)
              (cached_metadata p) (document p))).
Proof.
  split; [|split].
  - rewrite try_extractFromTest_eq.
    destruct (hides_hasOwnProperty (properties test)); [reflexivity|].
    exists (extractFromTest test). split; [reflexivity|]. split.
    + intros k. apply extractFromTest_get.
    + apply extractFromTest_own_keys.
  - repeat constructor.
  - intros p testMetadata Hfresh Hret. cbn [try_process_loop].
    now rewrite Hfresh, Hret.
Qed.

Lemma try_extractFromTest_recognized_own_properties_witness :
  try_process_loop [t1] (initial_page None []) =
  Returns (mkPage [("t1", [("help", VArray ["h1"])])] None []).
Proof.
  destruct (try_extractFromTest_recognized_own_properties t1) as [_ [_ Hstep]].
  apply (Hstep (initial_page None []) [("help", VArray ["h1"])]); reflexivity.
Defined.

(** ** Validator *)

Lemma deep_equal_restricted extracted cached :
  holds_sequences extracted ->
  holds_sequences cached ->
  restricted_deep_equal extracted cached <->
  deep_equal_on_recognized_keys extracted cached.
Proof.
  intros Hm Hc. unfold restricted_deep_equal, deep_equal_on_recognized_keys.
  split.
  - intros [Hsub [Heq Hsup]]. split.
    + intros testName.
      destruct (hasOwnProperty extracted testName) eqn:He;
        destruct (hasOwnProperty cached testName) eqn:Hca; try reflexivity.
      * apply Hsub in He. congruence.
      * apply Hsup in Hca. congruence.
    + intros testName tm cm meta Htm Hcm Hin.
      destruct (Heq _ _ _ _ Htm Hcm Hin) as [Hpres Hsame].
      unfold hasOwnProperty in Hpres.
      destruct (obj_get tm meta) as [tv|] eqn:Htv;
        destruct (obj_get cm meta) as [cv|] eqn:Hcv;
        try discriminate; [|reflexivity].
      destruct (Hm _ _ _ _ Htm Hin Htv) as [a ->].
      destruct (Hc _ _ _ _ Hcm Hin Hcv) as [b ->].
      f_equal. f_equal. apply same_sequence_eq. now apply Hsame.
  - intros [Hnames Heq]. split; [|split].
    + intros testName H. now rewrite <- Hnames.
    + intros testName tm cm meta Htm Hcm Hin.
      specialize (Heq _ _ _ _ Htm Hcm Hin). split.
      * unfold hasOwnProperty. now rewrite Heq.
      * intros a b Ha Hb. apply same_sequence_eq. congruence.
    + intros testName H. now rewrite Hnames.
Qed.

(** C1, as the claim has it, fails: a string is accepted for the sequence of
    its characters, on either side, although the two mappings are not
    deeply equal. *)
Lemma validateCache_accepts_string_for_sequence :
  try_validateCache [("t", [("help", VString "ab")])]
    [("t", [("help", VArray ["a"; "b"])])] = Returns (true, [])
  /\ ~ deep_equal_on_recognized_keys [("t", [("help", VString "ab")])]
         [("t", [("help", VArray ["a"; "b"])])]
  /\ try_validateCache [("t", [("help", VArray ["a"])])]
       [("t", [("help", VString "a")])] = Returns (true, [])
  /\ ~ deep_equal_on_recognized_keys [("t", [("help", VArray ["a"])])]
         [("t", [("help", VString "a")])].
Proof.
  split; [reflexivity|]. split; [|split; [reflexivity|]].
  - intros [_ H].
    specialize (H "t" _ _ "help" eq_refl eq_refl (or_introl eq_refl)).
    discriminate.
  - intros [_ H].
    specialize (H "t" _ _ "help" eq_refl eq_refl (or_introl eq_refl)).
    discriminate.
Qed.

(** C1, amended.  For an extracted mapping (its names distinct, as those of
    an object are) and a cached mapping that hold sequences of strings under
    help, assert and author, and in which no own property named
    hasOwnProperty hides the method, [validateCache] returns, and it returns
    true exactly when the two mappings are deeply equal restricted to help,
    assert and author with the same test names: every extracted name is in
    the cache and every cached name is matched, each of the three keys is on
    both sides or on neither, and on both sides the two sequences are the
    same. *)
Theorem try_validateCache_true_iff_deep_equal
  (metadata cached : obj (obj value)) :
  NoDup (own_keys metadata) ->
  holds_sequences metadata ->
  holds_sequences cached ->
  nothing_hidden metadata cached ->
  exists valid cached',
    try_validateCache metadata cached = Returns (valid, cached')
    /\ (valid = true <-> deep_equal_on_recognized_keys metadata cached).
Proof.
  intros Hnd Hm Hc Hvisible.
  rewrite (try_validateCache_eq _ _ Hvisible).
  exists (fst (validateCache metadata cached)),
    (snd (validateCache metadata cached)).
  split; [now destruct (validateCache metadata cached)|].
  rewrite (validateCache_true_iff_restricted_deep_equal _ _ Hnd Hm Hc).
  now apply deep_equal_restricted.
Qed.

Lemma try_validateCache_true_iff_deep_equal_witness :
  exists valid cached',
    try_validateCache
      [("t1", [("help", VArray ["h1"])]); ("t2", [("assert", VArray ["a1"; "a2"])])]
      [("t2", [("assert", VArray ["a1"; "a2"])]); ("t1", [("help", VArray ["h1"])])]
    = Returns (valid, cached')
    /\ (valid = true <->
        deep_equal_on_recognized_keys
          [("t1", [("help", VArray ["h1"])]); ("t2", [("assert", VArray ["a1"; "a2"])])]
          [("t2", [("assert", VArray ["a1"; "a2"])]); ("t1", [("help", VArray ["h1"])])]).
Proof.
  apply try_validateCache_true_iff_deep_equal.
  - repeat constructor; simpl; intuition discriminate.
  - apply sequence_valuedb_sound. reflexivity.
  - apply sequence_valuedb_sound. reflexivity.
  - apply nothing_hiddenb_sound. reflexivity.
Defined.








(** ** Presenter *)

Lemma try_process_loop_cached_metadata tests p :
  cached_metadata (page_left (try_process_loop tests p)) = cached_metadata p.
Proof.
  revert p. induction tests as [|test rest IH]; intros p;
    cbn [try_process_loop]; [reflexivity|].
  destruct (metadata_truthy (metadata p) (name test)).
  - now rewrite IH.
  - destruct (try_extractFromTest test); [now rewrite IH | reflexivity].
Qed.

(** C3, as the claim has it, fails: with a cached mapping that has an own
    property named hasOwnProperty the binding is there, [validateCache]
    returns neither true nor false, and [process] throws without a
    message. *)
Lemma process_throws_when_cache_hides_method :
  try_process [t1] (initial_page (Some [("hasOwnProperty", [])]) []) =
  Throws (mkPage [("t1", [("help", VArray ["h1"])])]
            (Some [("hasOwnProperty", [])]) [])
  /\ try_validateCache [("t1", [("help", VArray ["h1"])])]
       [("hasOwnProperty", [])] = Throws [("hasOwnProperty", [])].
Proof. split; reflexivity. Qed.

(** C3, amended.  When the extraction loop has returned, [process] ends in
    one of four ways.  When [window.cached_metadata] is not defined it puts a
    [p] element with id [metadata_issue] and class warning, whose text is
    Cached metdata not present. followed by the link, directly before the
    summary, or at the end when there is none.  When the binding is there and
    [validateCache] returns false it puts in the same place such an element
    of class error whose text is Cached metadata out of sync.  When
    [validateCache] returns true it puts in nothing.  When [validateCache]
    throws, [process] throws as well and puts in nothing.  When the
    extraction loop itself throws, [process] throws with the page as the
    loop left it. *)
Theorem try_process_reports_one_of_four_outcomes
  (tests : list Test) (p : page) :
  match try_process_loop tests p with
  | Throws q => try_process tests p = Throws q
  | Returns q =>
      match cached_metadata p with
      | None =>
          try_process tests p =
          Returns
            (mkPage (metadata q) None
               (before_id "summary" (document q)
                ++ Element "p" [("id", "metadata_issue"); ("class", "warning")]
                     [Text "Cached metdata not present. "; link_element]
                :: from_id "summary" (document q)))
      | Some cached =>
          match try_validateCache (metadata q) cached with
          | Throws cached' =>
              try_process tests p =
              Throws (mkPage (metadata q) (Some cached') (document q))
          | Returns (true, cached') =>
              try_process tests p =
              Returns (mkPage (metadata q) (Some cached') (document q))
          | Returns (false, cached') =>
              try_process tests p =
              Returns
                (mkPage (metadata q) (Some cached')
                   (before_id "summary" (document q)
                    ++ Element "p" [("id", "metadata_issue"); ("class", "error")]
                         [Text "Cached metadata out of sync. "; link_element]
                    :: from_id "summary" (document q)))
          end
      end
  end.
Proof.
  pose proof (try_process_loop_cached_metadata tests p) as Hc.
  unfold try_process.
  destruct (try_process_loop tests p) as [q|q]; [|reflexivity].
  cbn [page_left] in Hc. unfold try_report. rewrite Hc.
  destruct (cached_metadata p) as [cached|].
  - destruct (try_validateCache (metadata q) cached) as [[[|] cached']|cached'];
      cbn [negb]; unfold set_document, set_cached_metadata;
      cbn [metadata cached_metadata document];
      rewrite ?insert_message_split; reflexivity.
  - unfold set_document. rewrite insert_message_split, Hc. reflexivity.
Qed.

Lemma try_report_keeps p :
  metadata (page_left (try_report p)) = metadata p
  /\ forall n, In n (document p) -> In n (document (page_left (try_report p))).
Proof.
  assert (Hins : forall el n,
             In n (document p) -> In n (insert_message (document p) el)).
  { intros el n Hin. destruct (insert_message_inserted (document p) el)
      as [l1 [l2 [H1 H2]]].
    rewrite H2. rewrite H1 in Hin. apply in_app_or in Hin as [H|H];
      apply in_or_app; [now left | right; now right]. }
  unfold try_report. destruct (cached_metadata p) as [cached|].
  - destruct (try_validateCache (metadata p) cached) as [[[|] c]|c];
      cbn; split; try reflexivity; try (intros n Hn; exact Hn).
    intros n Hn. now apply Hins.
  - cbn. split; [reflexivity|]. intros n Hn. now apply Hins.
Qed.

(** C10.  There is an input with a test named after a property of
    [Object.prototype], constructor, for which [process] reports Duplicate
    test name on the first and only occurrence of the name and records no
    metadata for it, although the test has some and the name is no own
    property of the mapping: the check of line 187 reads
    [this.metadata[test.name]], which finds the inherited property.  The
    message is in the document that [process] leaves, directly before the
    summary, or at the end when there is none; on a fresh page without
    cache and nodes the document is that message and the warning. *)
Theorem prototype_name_reported_on_first_occurrence :
  exists test,
    In (name test) Object_prototype_properties
    /\ try_extractFromTest test = Returns [("help", VArray ["h"])]
    /\ metadata_truthy [] (name test) = true
    /\ hasOwnProperty (@nil (string * obj value)) (name test) = false
    /\ (forall cached doc,
           try_process_loop [test] (initial_page cached doc) =
           Returns
             (mkPage [] cached
                (before_id "summary" doc
                 ++ Element "p" [("class", "error")]
                      [Text "Duplicate test name: constructor"]
                 :: from_id "summary" doc))
           /\ In (Element "p" [("class", "error")]
                    [Text "Duplicate test name: constructor"])
                (document
                   (page_left (try_process [test] (initial_page cached doc))))
           /\ metadata
                (page_left (try_process [test] (initial_page cached doc))) = [])
    /\ try_process [test] (initial_page None []) =
       Returns
         (mkPage [] None
            [ Element "p" [("class", "error")]
                [Text "Duplicate test name: constructor"];
              Element "p" [("id", "metadata_issue"); ("class", "warning")]
                [Text "Cached metdata not present. "; link_element] ]).
Proof.
  exists t_constructor.
  split; [simpl; tauto|]. split; [reflexivity|]. split; [reflexivity|].
  split; [reflexivity|]. split; [|reflexivity].
  intros cached doc.
  assert (Hloop : try_process_loop [t_constructor] (initial_page cached doc) =
                  Returns
                    (mkPage [] cached
                       (before_id "summary" doc
                        ++ Element "p" [("class", "error")]
                             [Text "Duplicate test name: constructor"]
                        :: from_id "summary" doc))).
  { cbn [try_process_loop]. change (metadata_truthy _ _) with true. cbv iota.
    unfold error, set_document. now rewrite insert_message_split. }
  split; [exact Hloop|].
  unfold try_process. rewrite Hloop.
  destruct (try_report_keeps
              (mkPage [] cached
                 (before_id "summary" doc
                  ++ Element "p" [("class", "error")]
                       [Text "Duplicate test name: constructor"]
                  :: from_id "summary" doc))) as [Hm Hdoc].
  split; [|exact Hm].
  apply Hdoc. cbn [document]. apply in_or_app. right. now left.
Qed.

(** ** Runs of the generator *)

Lemma try_process_loop_returns tests p q :
  try_process_loop tests p = Returns q -> q = process_loop tests p.
Proof.
  revert p. induction tests as [|test rest IH]; intros p;
    cbn [try_process_loop process_loop].
  - now intros [= <-].
  - destruct (metadata_truthy (metadata p) (name test)); [apply IH|].
    rewrite try_extractFromTest_eq.
    destruct (hides_hasOwnProperty (properties test)); [discriminate | apply IH].
Qed.

Lemma try_process_loop_all_seen tests p :
  (forall test, In test tests ->
                metadata_truthy (metadata p) (name test) = true) ->
  try_process_loop tests p =
  Returns
    (mkPage (metadata p) (cached_metadata p)
       (before_id "summary" (document p)
        ++ map duplicate_message tests
        ++ from_id "summary" (document p))).
Proof.
  intros Hall.
  assert (Htry : try_process_loop tests p = Returns (process_loop tests p)).
  { revert p Hall. induction tests as [|test rest IH]; intros p Hall;
      cbn [try_process_loop process_loop]; [reflexivity|].
    rewrite (Hall test) by now left.
    apply IH. intros t Ht. apply Hall. now right. }
  rewrite Htry, (process_loop_all_seen _ _ Hall), report_duplicates_split.
  reflexivity.
Qed.

Lemma try_report_returns p q :
  try_report p = Returns q ->
  metadata q = metadata p
  /\ cached_metadata q =
     option_map (fun cached => cache_left (try_validateCache (metadata p) cached))
       (cached_metadata p).
Proof.
  unfold try_report. destruct (cached_metadata p) as [cached|] eqn:Hc.
  - destruct (try_validateCache (metadata p) cached) as [[[|] c]|c] eqn:Hv;
      cbn; try discriminate; intros [= <-]; unfold set_cached_metadata;
      cbn; rewrite Hv; now split.
  - intros [= <-]. cbn. now split.
Qed.

(** C9, amended.  The extracted mapping is the [metadata] field of the
    generator, which [process] fills and never resets.  When [process]
    returns, the field is what the extraction loop left: the entries it held
    before are there unchanged, and every test name of the run that is no
    name of a property of [Object.prototype] has an entry.  A later
    invocation starts from that mapping: on tests whose names a run has seen
    its extraction loop reports each of them as a duplicate, in order and
    before the summary, the invocation goes on from there as [process] does
    from line 195 on, and it leaves the mapping as it is, however it ends.  The cached mapping stays bound to
    [window.cached_metadata], as [validateCache] has left it. *)
Theorem metadata_outlives_try_process (tests : list Test) (p q : page) :
  try_process tests p = Returns q ->
  try_process_loop tests p =
    Returns (mkPage (metadata q) (cached_metadata p)
               (document (process_loop tests p)))
  /\ (forall testName testMetadata,
         obj_get (metadata p) testName = Some testMetadata ->
         obj_get (metadata q) testName = Some testMetadata)
  /\ (forall test,
         In test tests ->
         inherited (name test) = false ->
         hasOwnProperty (metadata q) (name test) = true)
  /\ (forall again,
         incl (map name again) (map name tests) ->
         try_process_loop again q =
         Returns
           (mkPage (metadata q) (cached_metadata q)
              (before_id "summary" (document q)
               ++ map duplicate_message again
               ++ from_id "summary" (document q)))
         /\ try_process again q =
            try_report
              (mkPage (metadata q) (cached_metadata q)
                 (before_id "summary" (document q)
                  ++ map duplicate_message again
                  ++ from_id "summary" (document q)))
         /\ metadata (page_left (try_process again q)) = metadata q)
  /\ cached_metadata q =
     option_map
       (fun cached => cache_left (try_validateCache (metadata q) cached))
       (cached_metadata p).
Proof.
  unfold try_process.
  destruct (try_process_loop tests p) as [q0|q0] eqn:Hloop; [|discriminate].
  intros Hreport.
  pose proof (try_process_loop_returns _ _ _ Hloop) as Hq0.
  destruct (try_report_returns _ _ Hreport) as [Hm Hc].
  assert (Htruthy : forall test,
             In test tests -> metadata_truthy (metadata q) (name test) = true).
  { intros test Hin. rewrite Hm, Hq0. now apply process_loop_names_truthy. }
  split; [|split; [|split; [|split]]].
  - f_equal. rewrite Hm, Hq0. destruct (process_loop tests p) eqn:Hp.
    cbn. f_equal. rewrite <- (process_loop_cached_metadata tests p), Hp.
    reflexivity.
  - intros testName tm Hget. rewrite Hm, Hq0.
    now apply process_loop_keeps_entries.
  - intros test Hin Hinh. rewrite <- (metadata_truthy_own _ _ Hinh).
    now apply Htruthy.
  - intros again Hincl.
    assert (Hseen : forall test,
               In test again -> metadata_truthy (metadata q) (name test) = true).
    { intros test Hin.
      assert (Hname : In (name test) (map name tests))
        by (apply Hincl; now apply in_map).
      apply in_map_iff in Hname as [test' [Heq Hin']].
      rewrite <- Heq. now apply Htruthy. }
    split; [now apply try_process_loop_all_seen|].
    unfold try_process. rewrite (try_process_loop_all_seen _ _ Hseen).
    split; [reflexivity|].
    now destruct (try_report_keeps
                    (mkPage (metadata q) (cached_metadata q)
                       (before_id "summary" (document q)
                        ++ map duplicate_message again
                        ++ from_id "summary" (document q)))) as [Hk _].
  - pose proof (try_process_loop_cached_metadata tests p) as Hcm.
    rewrite Hloop in Hcm. cbn [page_left] in Hcm.
    now rewrite Hc, Hm, Hcm.
Qed.

Lemma metadata_outlives_try_process_witness :
  hasOwnProperty
    (metadata (mkPage [("t1", [("help", VArray ["h1"])])] None
                 [issue_element "Cached metdata not present. " "warning"]))
    (name t1) = true.
Proof.
  destruct (metadata_outlives_try_process [t1] (initial_page None [])
              (mkPage [("t1", [("help", VArray ["h1"])])] None
                 [issue_element "Cached metdata not present. " "warning"])
              eq_refl) as [_ [_ [Hown _]]].
  apply (Hown t1); [now left | reflexivity].
Defined.

(** ** The messages of a run *)

Lemma process_loop_document tests : forall found p,
  (forall testName, found testName = metadata_truthy (metadata p) testName) ->
  document (process_loop tests p) =
  report_duplicates (document p) (found_in_metadata found tests).
Proof.
  induction tests as [|test rest IH]; intros found p Hfound;
    cbn [process_loop found_in_metadata]; [reflexivity|].
  rewrite Hfound.
  destruct (metadata_truthy (metadata p) (name test)).
  - rewrite (IH found) by exact Hfound. reflexivity.
  - rewrite (IH (fun testName =>
                   String.eqb (name test) testName || found testName)).
    + reflexivity.
    + intros testName. unfold metadata_truthy.
      cbn [set_metadata metadata]. rewrite obj_get_set, Hfound.
      unfold metadata_truthy.
      now destruct (String.eqb (name test) testName).
Qed.

Lemma insert_after_duplicates doc reported el :
  has_id "summary" el = false ->
  insert_message
    (before_id "summary" doc ++ map duplicate_message reported
     ++ from_id "summary" doc) el =
  before_id "summary" doc ++ map duplicate_message reported ++ [el]
  ++ from_id "summary" doc.
Proof.
  intros Hel.
  set (B := before_id "summary" doc ++ map duplicate_message reported).
  assert (Hno : Forall (fun n => has_id "summary" n = false) B).
  { apply Forall_app. split; [apply before_id_no_id|].
    apply Forall_forall. intros n Hn.
    apply in_map_iff in Hn as [test [<- _]]. reflexivity. }
  replace (before_id "summary" doc ++ map duplicate_message reported
           ++ from_id "summary" doc)
    with (B ++ from_id "summary" doc)
    by (unfold B; now rewrite <- app_assoc).
  rewrite insert_message_split.
  rewrite before_id_app, from_id_app by exact Hno.
  rewrite before_id_from_id, from_id_from_id, app_nil_r.
  unfold B. now rewrite <- !app_assoc.
Qed.

(** X2.  [process] never removes or reorders a node.  When it returns, the
    document is the one it found with, directly before the summary (or at
    the end), first one Duplicate test name message for each test whose name
    was found in the extracted mapping at its turn, one per occurrence and in
    the order of the run, then at most one [metadata_issue] element: none
    when the cached mapping validates, the error when it does not, the
    warning when there is no cached mapping. *)
Theorem try_process_adds_messages_before_summary
  (tests : list Test) (p q : page) :
  try_process tests p = Returns q ->
  let reported :=
    found_in_metadata (metadata_truthy (metadata p)) tests in
  exists q0 issue,
    try_process_loop tests p = Returns q0
    /\ document q0 =
       before_id "summary" (document p)
       ++ map duplicate_message reported
       ++ from_id "summary" (document p)
    /\ issue =
       match cached_metadata p with
       | None => [issue_element "Cached metdata not present. " "warning"]
       | Some cached =>
           match try_validateCache (metadata q) cached with
           | Returns (true, _) => []
           | _ => [issue_element "Cached metadata out of sync. " "error"]
           end
       end
    /\ document q =
       before_id "summary" (document p)
       ++ map duplicate_message reported ++ issue
       ++ from_id "summary" (document p).
Proof.
  intros Hq reported. unfold try_process in Hq.
  destruct (try_process_loop tests p) as [q0|q0] eqn:Hloop; [|discriminate].
  pose proof (try_process_loop_returns _ _ _ Hloop) as Hq0.
  pose proof (try_process_loop_cached_metadata tests p) as Hcm.
  rewrite Hloop in Hcm. cbn [page_left] in Hcm.
  assert (Hdoc : document q0 =
                 before_id "summary" (document p)
                 ++ map duplicate_message reported
                 ++ from_id "summary" (document p)).
  { rewrite Hq0,
      (process_loop_document tests (metadata_truthy (metadata p)) p)
      by reflexivity.
    apply report_duplicates_split. }
  destruct (try_report_returns _ _ Hq) as [Hm _].
  exists q0. eexists. split; [reflexivity|]. split; [exact Hdoc|].
  split; [reflexivity|].
  unfold try_report in Hq. rewrite Hcm in Hq. rewrite Hm.
  destruct (cached_metadata p) as [cached|].
  - destruct (try_validateCache (metadata q0) cached) as [[[|] c]|c];
      cbn [negb] in Hq; try discriminate; injection Hq as <-;
      unfold set_cached_metadata; cbn [set_document document].
    + exact Hdoc.
    + rewrite Hdoc. now apply insert_after_duplicates.
  - injection Hq as <-. cbn [set_document document].
    rewrite Hdoc. now apply insert_after_duplicates.
Qed.

Lemma try_process_adds_messages_before_summary_witness :
  document
    (page_left
       (try_process [t1; t1; t2; t1]
          (initial_page None [Element "div" [("id", "summary")] []]))) =
  [duplicate_message t1; duplicate_message t1;
   issue_element "Cached metdata not present. " "warning";
   Element "div" [("id", "summary")] []].
Proof.
  destruct (try_process_adds_messages_before_summary [t1; t1; t2; t1]
              (initial_page None [Element "div" [("id", "summary")] []])
              (page_left
                 (try_process [t1; t1; t2; t1]
                    (initial_page None [Element "div" [("id", "summary")] []])))
              eq_refl) as [q0 [issue [_ [_ [Hissue Hdoc]]]]].
  rewrite Hdoc, Hissue. reflexivity.
Defined.

(** ** The comparison of [validateCache] on values that are no sequences *)

(** X5.  For values that are booleans, strings or sequences of strings, an
    extracted mapping with distinct names and objects none of which has an
    own property named hasOwnProperty, [validateCache] returns, and it
    returns true exactly when the two mappings have the same names and, under
    each name, each of help, assert and author is on both sides or on
    neither, with values of the same [length] and the same element at every
    index below it.  Other keys of a cached entry and the order of the
    entries play no part. *)
Theorem try_validateCache_compares_lengths_and_elements
  (metadata cached : obj (obj value)) :
  NoDup (own_keys metadata) ->
  nothing_hidden metadata cached ->
  exists valid cached',
    try_validateCache metadata cached = Returns (valid, cached')
    /\ (valid = true <->
        (forall testName,
            hasOwnProperty metadata testName = hasOwnProperty cached testName)
        /\ (forall testName testMetadata cachedTestMetadata,
               obj_get metadata testName = Some testMetadata ->
               obj_get cached testName = Some cachedTestMetadata ->
               forall meta,
                 In meta ["help"; "assert"; "author"] ->
                 match obj_get cachedTestMetadata meta,
                       obj_get testMetadata meta with
                 | Some cachedValue, Some testValue =>
                     js_length cachedValue = js_length testValue
                     /\ forall i,
                         i < iterations (js_length cachedValue) ->
                         js_index cachedValue i = js_index testValue i
                 | None, None => True
                 | _, _ => False
                 end)).
Proof.
  intros Hnd Hvisible.
  rewrite (try_validateCache_eq _ _ Hvisible).
  exists (fst (validateCache metadata cached)),
    (snd (validateCache metadata cached)).
  split; [now destruct (validateCache metadata cached)|].
  exact (validateCache_true_agree metadata cached Hnd).
Qed.

Lemma try_validateCache_compares_lengths_and_elements_witness :
  js_length (VArray ["a"; "b"]) = js_length (VString "ab")
  /\ forall i, i < iterations (js_length (VArray ["a"; "b"])) ->
               js_index (VArray ["a"; "b"]) i = js_index (VString "ab") i.
Proof.
  assert (Hnd : NoDup (own_keys [("t", [("help", VString "ab")])]))
    by (repeat constructor; simpl; tauto).
  assert (Hvisible :
            nothing_hidden
              [("t", [("help", VString "ab")])]
              [("t", [("other", VBool true); ("help", VArray ["a"; "b"])])])
    by (apply nothing_hiddenb_sound; reflexivity).
  destruct (try_validateCache_compares_lengths_and_elements
              [("t", [("help", VString "ab")])]
              [("t", [("other", VBool true); ("help", VArray ["a"; "b"])])]
              Hnd Hvisible)
    as [valid [cached' [Hret Hiff]]].
  injection Hret as <- _.
  destruct (proj1 Hiff eq_refl) as [_ Hagree].
  apply (Hagree "t" _ _ eq_refl eq_refl "help"). now left.
Defined.

(** ** The properties [extractFromTest] looks at *)

Lemma hides_obj_set {A} (o : obj A) k v :
  hides_hasOwnProperty (obj_set o k v) =
  String.eqb k "hasOwnProperty" || hides_hasOwnProperty o.
Proof.
  unfold hides_hasOwnProperty, hasOwnProperty. rewrite obj_get_set.
  now destruct (String.eqb k "hasOwnProperty").
Qed.

Lemma hides_extractFromTest test :
  hides_hasOwnProperty (extractFromTest test) = false.
Proof.
  unfold hides_hasOwnProperty, hasOwnProperty.
  now rewrite extractFromTest_get.
Qed.

(** X13.  [extractFromTest] looks at help, assert and author, and, to call
    it, at hasOwnProperty.  Setting any other property of a test leaves its
    outcome unchanged; setting hasOwnProperty makes it throw; and extracting
    from what has been extracted returns the same sub-mapping again. *)
Theorem try_extractFromTest_ignores_other_properties :
  (forall testName properties k v,
      ~ In k ["help"; "assert"; "author"; "hasOwnProperty"] ->
      try_extractFromTest (mkTest testName (obj_set properties k v)) =
      try_extractFromTest (mkTest testName properties))
  /\ (forall testName properties v,
         try_extractFromTest
           (mkTest testName (obj_set properties "hasOwnProperty" v)) =
         Throws tt)
  /\ (forall test testName testMetadata,
         try_extractFromTest test = Returns testMetadata ->
         try_extractFromTest (mkTest testName testMetadata) =
         Returns testMetadata).
Proof.
  split; [|split].
  - intros testName props k v Hk. rewrite !try_extractFromTest_eq.
    cbn [properties]. rewrite hides_obj_set.
    destruct (String.eqb_spec k "hasOwnProperty") as [->|_];
      [exfalso; apply Hk; simpl; tauto|].
    cbn [orb]. destruct (hides_hasOwnProperty props); [reflexivity|].
    f_equal. apply extractFromTest_same_lookups.
    intros meta Hin. cbn [properties]. rewrite obj_get_set.
    destruct (String.eqb_spec k meta) as [->|Hne]; [|reflexivity].
    exfalso. apply Hk. simpl in Hin. simpl. tauto.
  - intros testName props v. rewrite try_extractFromTest_eq.
    cbn [properties]. now rewrite hides_obj_set.
  - intros test testName testMetadata. rewrite !try_extractFromTest_eq.
    cbn [properties].
    destruct (hides_hasOwnProperty (properties test)); [discriminate|].
    intros [= <-]. rewrite hides_extractFromTest. f_equal.
    apply extractFromTest_same_lookups.
    intros meta Hin. cbn [properties]. rewrite extractFromTest_get.
    assert (Hex : existsb (String.eqb meta) metadataProperties = true).
    { apply existsb_exists. exists meta.
      split; [exact Hin | apply String.eqb_refl]. }
    now rewrite Hex.
Qed.

Lemma try_extractFromTest_ignores_other_properties_witness :
  try_extractFromTest
    (mkTest "t" (obj_set [("help", VArray ["h"])] "timeout" (VString "long"))) =
  try_extractFromTest (mkTest "t" [("help", VArray ["h"])])
  /\ try_extractFromTest (mkTest "u" [("help", VArray ["h"])]) =
     Returns [("help", VArray ["h"])].
Proof.
  destruct try_extractFromTest_ignores_other_properties as [Hother [_ Hagain]].
  split.
  - apply Hother. simpl. intuition discriminate.
  - apply (Hagain (mkTest "t" [("help", VArray ["h"]); ("x", VBool true)])).
    reflexivity.
Defined.

(** ** The source text, pasted into the document *)

Lemma extractFromTest_entries test meta v :
  In (meta, v) (extractFromTest test) ->
  In meta ["help"; "assert"; "author"]
  /\ obj_get (properties test) meta = Some v.
Proof.
  rewrite extractFromTest_cases. intros H.
  apply in_app_or in H as [H|H]; [|apply in_app_or in H as [H|H]].
  - destruct (obj_get (properties test) "help") as [v'|] eqn:Hget;
      [|contradiction].
    destruct H as [[= <- <-]|[]]. split; [simpl; tauto | exact Hget].
  - destruct (obj_get (properties test) "assert") as [v'|] eqn:Hget;
      [|contradiction].
    destruct H as [[= <- <-]|[]]. split; [simpl; tauto | exact Hget].
  - destruct (obj_get (properties test) "author") as [v'|] eqn:Hget;
      [|contradiction].
    destruct H as [[= <- <-]|[]]. split; [simpl; tauto | exact Hget].
Qed.

Lemma process_loop_no_markup tests cached doc :
  (forall test,
      In test tests ->
      no_markup (name test) = true
      /\ forall meta v,
          In meta ["help"; "assert"; "author"] ->
          obj_get (properties test) meta = Some v ->
          no_markup_value v = true) ->
  no_markup_metadata (metadata (process_loop tests (initial_page cached doc))).
Proof.
  intros Hplain. apply Forall_forall. intros e He.
  apply process_loop_entries in He as [[]|[test [Hin ->]]].
  destruct (Hplain test Hin) as [Hname Hvalues].
  split; [exact Hname|]. cbn [snd].
  apply Forall_forall. intros [meta v] Hmeta.
  apply extractFromTest_entries in Hmeta as [Hkey Hget].
  split; [|now apply (Hvalues meta)].
  cbn [fst]. simpl in Hkey. now destruct Hkey as [<-|[<-|[<-|[]]]].
Qed.

Lemma process_loop_safe tests cached doc :
  (forall test, In test tests -> safe_name (name test)) ->
  safe_metadata (metadata (process_loop tests (initial_page cached doc))).
Proof.
  intros Hsafe. apply Forall_forall. intros e He.
  apply process_loop_entries in He as [[]|[test [Hin ->]]].
  split; [now apply Hsafe | apply extractFromTest_safe].
Qed.

Lemma try_process_metadata tests p q :
  try_process tests p = Returns q ->
  try_process_loop tests p = Returns (process_loop tests p)
  /\ metadata q = metadata (process_loop tests p).
Proof.
  unfold try_process.
  destruct (try_process_loop tests p) as [q0|q0] eqn:Hloop; [|discriminate].
  intros Hreport.
  rewrite <- (try_process_loop_returns _ _ _ Hloop).
  split; [reflexivity|]. now destruct (try_report_returns _ _ Hreport).
Qed.

(** X16.  When [process] returns on a freshly loaded generator, and the test
    names need no escaping, and neither they nor the help, assert and author
    values of the tests hold a less-than sign, the source text reads back,
    as the text of a script element, as the extracted mapping.  A help line
    that holds the end tag of a script element ends the element where it
    stands, and nothing is read back. *)
Theorem generateSource_reads_back_as_script :
  (forall (tests : list Test) (cached : option (obj (obj value)))
          (doc : list node) (q : page),
      (forall test,
          In test tests ->
          safe_name (name test)
          /\ no_markup (name test) = true
          /\ forall meta v,
              In meta ["help"; "assert"; "author"] ->
              obj_get (properties test) meta = Some v ->
              no_markup_value v = true) ->
      try_process tests (initial_page cached doc) = Returns q ->
      read_source (generateSource q) = Some (metadata q))
  /\ (let test := mkTest "t" [("help", VArray ["</script>"])] in
      exists q,
        try_process [test] (initial_page None []) = Returns q
        /\ metadata q = [("t", [("help", VArray ["</script>"])])]
        /\ read_source (generateSource q) = None).
Proof.
  split.
  - intros tests cached doc q Hdata Hq.
    destruct (try_process_metadata _ _ _ Hq) as [_ Hm].
    apply read_source_generateSource; rewrite Hm.
    + apply process_loop_safe. intros test Hin. now destruct (Hdata test Hin).
    + apply process_loop_no_markup. intros test Hin.
      now destruct (Hdata test Hin) as [_ H].
  - eexists. split; [reflexivity|]. split; reflexivity.
Qed.

Lemma generateSource_reads_back_as_script_witness :
  read_source
    (generateSource
       (mkPage [("t1", [("help", VArray ["h1"])]);
                ("t2", [("assert", VArray ["a1"; "a2"])])]
          None [issue_element "Cached metdata not present. " "warning"])) =
  Some [("t1", [("help", VArray ["h1"])]);
        ("t2", [("assert", VArray ["a1"; "a2"])])].
Proof.
  destruct generateSource_reads_back_as_script as [Hreads _].
  apply (Hreads [t1; t2] None []).
  - intros test [<-|[<-|[]]]; (split; [reflexivity|]); (split; [reflexivity|]);
      intros meta v [<-|[<-|[<-|[]]]]; cbn; intros [= <-]; reflexivity.
  - reflexivity.
Defined.

Lemma try_process_loop_same_metadata tests : forall p p' q,
  metadata p = metadata p' ->
  try_process_loop tests p = Returns q ->
  try_process_loop tests p' = Returns (process_loop tests p').
Proof.
  induction tests as [|test rest IH]; intros p p' q Hm;
    cbn [try_process_loop process_loop]; [reflexivity|].
  rewrite <- Hm.
  destruct (metadata_truthy (metadata p) (name test)).
  - apply IH. exact Hm.
  - destruct (try_extractFromTest test) as [testMetadata|] eqn:Hextract;
      [|discriminate].
    rewrite try_extractFromTest_eq in Hextract.
    destruct (hides_hasOwnProperty (properties test)); [discriminate|].
    injection Hextract as <-.
    apply IH. cbn [set_metadata metadata]. now rewrite Hm.
Qed.

Lemma process_loop_nothing_hidden tests cached doc :
  let m := metadata (process_loop tests (initial_page cached doc)) in
  nothing_hidden m m.
Proof.
  intros m.
  assert (Hentries : Forall
                       (fun entry => hides_hasOwnProperty (snd entry) = false) m).
  { apply Forall_forall. intros e He.
    apply process_loop_entries in He as [[]|[test [_ ->]]].
    apply hides_extractFromTest. }
  split; [exact Hentries|]. split; [|exact Hentries].
  unfold hides_hasOwnProperty.
  destruct (hasOwnProperty m "hasOwnProperty") eqn:Hown; [|reflexivity].
  apply own_keys_get in Hown. unfold own_keys in Hown.
  apply in_map_iff in Hown as [e [Hkey He]].
  apply process_loop_recorded in He as [[]|[test [_ [-> Hinh]]]].
  cbn [fst] in Hkey. rewrite Hkey in Hinh. discriminate.
Qed.

(** X12.  The tool closes its loop.  When a run without cache on a freshly
    loaded generator returns, and the test names need no escaping, and
    neither they nor the help, assert and author values hold a less-than
    sign, then the source text, read back as the text of a script element
    and installed as [window.cached_metadata], makes the next run on the
    same tests return with the same extracted mapping, the cached mapping
    drained, and no [metadata_issue] element: the document holds, before the
    summary, the Duplicate test name messages of the run and nothing else
    new. *)
Theorem pasted_source_validates_next_run
  (tests : list Test) (doc doc' : list node) (q : page) :
  (forall test,
      In test tests ->
      safe_name (name test)
      /\ no_markup (name test) = true
      /\ forall meta v,
          In meta ["help"; "assert"; "author"] ->
          obj_get (properties test) meta = Some v ->
          no_markup_value v = true) ->
  try_process tests (initial_page None doc) = Returns q ->
  read_source (generateSource q) = Some (metadata q)
  /\ try_process tests (initial_page (read_source (generateSource q)) doc') =
     Returns
       (mkPage (metadata q) (Some [])
          (before_id "summary" doc'
           ++ map duplicate_message
                (found_in_metadata (metadata_truthy []) tests)
           ++ from_id "summary" doc')).
Proof.
  intros Hdata Hq.
  destruct (try_process_metadata _ _ _ Hq) as [Hloop Hm].
  assert (Hread : read_source (generateSource q) = Some (metadata q)).
  { apply read_source_generateSource; rewrite Hm.
    - apply process_loop_safe. intros test Hin. now destruct (Hdata test Hin).
    - apply process_loop_no_markup. intros test Hin.
      now destruct (Hdata test Hin) as [_ H]. }
  split; [exact Hread|]. rewrite Hread.
  set (m := metadata q) in *.
  set (p' := initial_page (Some m) doc').
  assert (Hloop' : try_process_loop tests p' = Returns (process_loop tests p'))
    by (now apply (try_process_loop_same_metadata tests
                     (initial_page None doc) p' _ eq_refl Hloop)).
  assert (Hm' : metadata (process_loop tests p') = m).
  { rewrite Hm. now apply process_loop_metadata_only. }
  assert (Hnd : NoDup (own_keys m)).
  { rewrite Hm. apply process_loop_initial_NoDup. }
  assert (Hvisible : nothing_hidden m m).
  { rewrite Hm. apply process_loop_nothing_hidden. }
  unfold try_process. rewrite Hloop'. unfold try_report.
  rewrite process_loop_cached_metadata. cbn [p' initial_page cached_metadata].
  rewrite Hm', (try_validateCache_eq _ _ Hvisible), (validateCache_self _ Hnd).
  cbn [negb]. unfold set_cached_metadata. rewrite Hm'. do 2 f_equal.
  rewrite (process_loop_document tests (metadata_truthy []) _)
    by reflexivity.
  apply report_duplicates_split.
Qed.

Lemma pasted_source_validates_next_run_witness :
  try_process [t1; t2]
    (initial_page
       (read_source
          (generateSource
             (page_left (try_process [t1; t2] (initial_page None [])))))
       []) =
  Returns
    (mkPage [("t1", [("help", VArray ["h1"])]);
             ("t2", [("assert", VArray ["a1"; "a2"])])]
       (Some []) []).
Proof.
  destruct (pasted_source_validates_next_run [t1; t2] [] []
              (page_left (try_process [t1; t2] (initial_page None []))))
    as [_ Hnext].
  - intros test [<-|[<-|[]]]; (split; [reflexivity|]); (split; [reflexivity|]);
      intros meta v [<-|[<-|[<-|[]]]]; cbn; intros [= <-]; reflexivity.
  - reflexivity.
  - rewrite Hnext. reflexivity.
Defined.
